(** * geocat-viz [util.py]: a shallow embedding and its verified properties

    The module is a handful of helpers that drive a plotting axes object.
    The embedding follows the Python source function by function:

    - Python numbers are [num]: an [int] carries its value in [Z], a finite
      [float] carries the rational it denotes;
    - exceptions are explicit: pure code returns a [result], code that
      drives the axes runs in a state-and-error monad [Ax];
    - the axes object is external to the module, so it is represented by
      the sequence of setter calls it has received;
    - the process-wide colormap registry is a finite map from names to
      colormaps. *)

From Stdlib Require Import ZArith QArith Qabs Qround List String Ascii Lia Lqa.
From Stdlib Require Import DecimalString.
From stdpp Require Import base list sorting gmap strings.
Import ListNotations.

Local Open Scope string_scope.
Local Open Scope list_scope.
Local Open Scope Z_scope.

(** ** Python numbers

    A [float] is represented by its exact value, which is what Python's
    comparisons between numbers look at.  Infinities, NaN and the sign of
    zero are not represented. *)

Inductive num : Type :=
| Int (z : Z)
| Float (q : Q).

Definition to_Q (x : num) : Q :=
  match x with
  | Int z => inject_Z z
  | Float q => q
  end.

(** Python compares an [int] with a [float] by exact value. *)
Definition num_compare (a b : num) : comparison := Qcompare (to_Q a) (to_Q b).

Definition num_ltb (a b : num) : bool :=
  match num_compare a b with Lt => true | _ => false end.
Definition num_gtb (a b : num) : bool :=
  match num_compare a b with Gt => true | _ => false end.
Definition num_leb (a b : num) : bool :=
  match num_compare a b with Gt => false | _ => true end.
Definition num_geb (a b : num) : bool :=
  match num_compare a b with Lt => false | _ => true end.
Definition num_eqb (a b : num) : bool :=
  match num_compare a b with Eq => true | _ => false end.

(** ** Exceptions *)

Inductive exn : Type :=
| ValueError (msg : string)
| TypeError (msg : string).

Inductive result (A : Type) : Type :=
| Ok (a : A)
| Raise (e : exn).
Arguments Ok {A} a.
Arguments Raise {A} e.

Definition rbind {A B : Type} (m : result A) (k : A -> result B) : result B :=
  match m with
  | Ok a => k a
  | Raise e => Raise e
  end.

Declare Scope result_scope.
Delimit Scope result_scope with result.
Notation "'let!' x ':=' m 'in' k" := (rbind m (fun x => k))
  (at level 10, x name, m at level 100, k at level 200) : result_scope.

(** ** The built-in [range] *)

(** Number of items of [range(start, stop, step)] for a nonzero [step]. *)
Definition range_length (start stop step : Z) : Z :=
  if 0 <? step then
    if start <? stop then (stop - start - 1) / step + 1 else 0
  else if step <? 0 then
    if stop <? start then (start - stop - 1) / (- step) + 1 else 0
  else 0.

Definition range_items (start stop step : Z) : list Z :=
  (fun i => start + i * step) <$> seqZ 0 (range_length start stop step).

Definition float_not_integer : string :=
  "'float' object cannot be interpreted as an integer".
Definition range_zero_step : string :=
  "range() arg 3 must not be zero".

(** [range] takes its arguments through [__index__], in order. *)
Definition index (x : num) : result Z :=
  match x with
  | Int z => Ok z
  | Float _ => Raise (TypeError float_not_integer)
  end.

Definition range (start stop step : num) : result (list Z) :=
  (let! a := index start in
   let! b := index stop in
   let! c := index step in
   if c =? 0 then Raise (ValueError range_zero_step)
   else Ok (range_items a b c))%result.


(** ** The axes object

    The module never looks inside the axes: it only calls setters on it.
    An axes is therefore the sequence of setter calls it has received, in
    order; an axes that received no further call has not been mutated. *)

Inductive title_loc : Type := loc_left | loc_center | loc_right.

Inductive crs : Type := PlateCarree.

Definition vertex : Type := num * num.

(** [mpath.Path(vertices)]. *)
Inductive path : Type := Path (vertices : list vertex).

(** [proj_to_data.transform_path(path)], where [proj_to_data] is
    [ccrs.PlateCarree()._as_mpl_transform(ax) - ax.transData]. *)
Inductive boundary : Type := proj_to_data (p : path).

Inductive call : Type :=
| set_title (label : string) (fontsize : Z) (y : num) (loc : option title_loc)
| set_xlabel (label : string) (fontsize : Z)
| set_ylabel (label : string) (fontsize : Z)
| set_xticks (ticks : list num)
| set_yticks (ticks : list num)
| set_xticklabels (labels : list string)
| set_yticklabels (labels : list string)
| set_xlim (lim : num * num)
| set_ylim (lim : num * num)
| set_boundary (b : boundary)
| set_extent (extents : list num) (c : crs).

Definition Axes : Type := list call.

(** ** State-and-error monad

    Code that acts on a mutable object threads the object's state and
    stops at the first exception; the state reached at that point is kept,
    so that what was mutated before a raise can be read off. *)

Definition St (S A : Type) : Type := S -> result A * S.

Definition st_ret {S A : Type} (a : A) : St S A := fun s => (Ok a, s).

Definition st_bind {S A B : Type} (m : St S A) (k : A -> St S B) : St S B :=
  fun s =>
    match m s with
    | (Ok a, s') => k a s'
    | (Raise e, s') => (Raise e, s')
    end.

(** A pure computation that may raise. *)
Definition st_lift {S A : Type} (r : result A) : St S A := fun s => (r, s).

Declare Scope st_scope.
Delimit Scope st_scope with st.
Notation "x <- m ;; k" := (st_bind m (fun x => k))
  (at level 100, m at next level, right associativity) : st_scope.
Notation "m ;; k" := (st_bind m (fun _ => k))
  (at level 100, right associativity) : st_scope.

Definition Ax (A : Type) : Type := St Axes A.

(** [ax.<setter>(...)]. *)
Definition ax_call (c : call) : Ax unit := fun ax => (Ok tt, ax ++ [c]).

(** [if x is not None: body x]. *)
Definition if_not_None {A : Type} (x : option A) (body : A -> Ax unit) : Ax unit :=
  match x with
  | Some a => body a
  | None => st_ret tt
  end.

(** ** Float arithmetic and the functions that use it *)

Section Floats.

(** Rounding of an exact value to the nearest [float].  The module adds
    or subtracts an integer and writes two decimal literals; nothing
    below depends on how these round. *)
Variable round64 : Q -> Q.

Definition num_add (a b : num) : num :=
  match a, b with
  | Int x, Int y => Int (x + y)
  | _, _ => Float (round64 (to_Q a + to_Q b))
  end.

Definition num_sub (a b : num) : num :=
  match a, b with
  | Int x, Int y => Int (x - y)
  | _, _ => Float (round64 (to_Q a - to_Q b))
  end.

(** ** [set_titles_and_labels] (util.py, lines 68-143) *)

(** The literals [1.12] and [1.04]. *)
Definition y_above_row : num := Float (round64 (112 # 100)).
Definition y_row : num := Float (round64 (104 # 100)).

Definition is_not_None {A : Type} (x : option A) : bool :=
  match x with Some _ => true | None => false end.

Definition set_titles_and_labels
    (maintitle : option string) (maintitlefontsize : Z)
    (lefttitle : option string) (lefttitlefontsize : Z)
    (righttitle : option string) (righttitlefontsize : Z)
    (xlabel ylabel : option string) (labelfontsize : Z) : Ax unit :=
  (if_not_None maintitle (fun maintitle =>
     if is_not_None lefttitle || is_not_None righttitle then
       ax_call (set_title maintitle (maintitlefontsize + 2) y_above_row None)
     else
       ax_call (set_title maintitle maintitlefontsize y_row None)) ;;
   if_not_None lefttitle (fun lefttitle =>
     ax_call (set_title lefttitle lefttitlefontsize y_row (Some loc_left))) ;;
   if_not_None righttitle (fun righttitle =>
     ax_call (set_title righttitle righttitlefontsize y_row (Some loc_right))) ;;
   if_not_None xlabel (fun xlabel =>
     ax_call (set_xlabel xlabel labelfontsize)) ;;
   if_not_None ylabel (fun ylabel =>
     ax_call (set_ylabel ylabel labelfontsize)))%st.

(** ** [set_axes_limits_and_ticks] (util.py, lines 145-196) *)

Definition set_axes_limits_and_ticks
    (xlim ylim : option (num * num)) (xticks yticks : option (list num))
    (xticklabels yticklabels : option (list string)) : Ax unit :=
  (if_not_None xticks (fun xticks => ax_call (set_xticks xticks)) ;;
   if_not_None yticks (fun yticks => ax_call (set_yticks yticks)) ;;
   if_not_None xticklabels (fun xticklabels => ax_call (set_xticklabels xticklabels)) ;;
   if_not_None yticklabels (fun yticklabels => ax_call (set_yticklabels yticklabels)) ;;
   if_not_None xlim (fun xlim => ax_call (set_xlim xlim)) ;;
   if_not_None ylim (fun ylim => ax_call (set_ylim ylim)))%st.

(** ** [set_map_boundary] (util.py, lines 263-363) *)

Definition lon_order_msg : string :=
  "The first longitude value must be strictly less than the second longitude value unless the region crosses over the antimeridian".
Definition lat_order_msg : string :=
  "The first latitude value must be strictly less than the second latitude value".
Definition lon_bounds_msg : string :=
  "The longitudes must be within the range [-180, 180] inclusive".
Definition lat_bounds_msg : string :=
  "The latitudes must be within the range [-90, 90] inclusive".

(** [if cond: raise ValueError(msg)]. *)
Definition raise_if (cond : bool) (msg : string) : result unit :=
  if cond then Raise (ValueError msg) else Ok tt.

(** Lines 323-334. *)
Definition validate (lon_range lat_range : num * num) : result unit :=
  (let! _ := raise_if (num_geb lon_range.1 lon_range.2 &&
                       negb (num_gtb lon_range.1 (Int 0) && num_ltb lon_range.2 (Int 0)))
                      lon_order_msg in
   let! _ := raise_if (num_geb lat_range.1 lat_range.2) lat_order_msg in
   let! _ := raise_if (num_gtb lon_range.1 (Int 180) || num_ltb lon_range.1 (Int (-180)) ||
                       num_gtb lon_range.2 (Int 180) || num_ltb lon_range.2 (Int (-180)))
                      lon_bounds_msg in
   raise_if (num_gtb lat_range.1 (Int 90) || num_ltb lat_range.1 (Int (-90)) ||
             num_gtb lat_range.2 (Int 90) || num_ltb lat_range.2 (Int (-90)))
            lat_bounds_msg)%result.

(** The three branches of lines 339-355, each a sum of list
    comprehensions evaluated left to right. *)
Definition antimeridian_vertices (lon_range lat_range : num * num) (res : Z)
  : result (list vertex) :=
  (let! south_a := range lon_range.1 (Int (180 + 1)) (Int res) in
   let! south_b := range (Int (-180)) (num_add lon_range.2 (Int 1)) (Int res) in
   let! east := range lat_range.1 (num_add lat_range.2 (Int 1)) (Int res) in
   let! north_a := range lon_range.2 (Int (-180 - 1)) (Int (- res)) in
   let! north_b := range (Int 180) (num_sub lon_range.1 (Int 1)) (Int (- res)) in
   let! west := range lat_range.2 (num_sub lat_range.1 (Int 1)) (Int (- res)) in
   Ok (((fun lon => (Int lon, lat_range.1)) <$> south_a) ++
       ((fun lon => (Int lon, lat_range.1)) <$> south_b) ++
       ((fun lat => (lon_range.2, Int lat)) <$> east) ++
       ((fun lon => (Int lon, lat_range.2)) <$> north_a) ++
       ((fun lon => (Int lon, lat_range.2)) <$> north_b) ++
       ((fun lat => (lon_range.1, Int lat)) <$> west)))%result.

Definition circle_vertices (lat_range : num * num) (res : Z) : result (list vertex) :=
  (let! ring := range (Int 0) (Int (360 + 1)) (Int res) in
   Ok ((fun lon => (Int lon, lat_range.1)) <$> ring))%result.

Definition box_vertices (lon_range lat_range : num * num) (res : Z)
  : result (list vertex) :=
  (let! south := range lon_range.1 (num_add lon_range.2 (Int 1)) (Int res) in
   let! east := range lat_range.1 (num_add lat_range.2 (Int 1)) (Int res) in
   let! north := range lon_range.2 (num_sub lon_range.1 (Int 1)) (Int (- res)) in
   let! west := range lat_range.2 (num_sub lat_range.1 (Int 1)) (Int (- res)) in
   Ok (((fun lon => (Int lon, lat_range.1)) <$> south) ++
       ((fun lat => (lon_range.2, Int lat)) <$> east) ++
       ((fun lon => (Int lon, lat_range.2)) <$> north) ++
       ((fun lat => (lon_range.1, Int lat)) <$> west)))%result.

Definition crosses_antimeridian (lon_range : num * num) : bool :=
  num_geb lon_range.1 (Int 0) && num_leb lon_range.2 (Int 0).

Definition full_circle (lon_range : num * num) : bool :=
  (num_eqb lon_range.1 (Int 180) || num_eqb lon_range.1 (Int (-180))) &&
  (num_eqb lon_range.2 (Int 180) || num_eqb lon_range.2 (Int (-180))).

(** Lines 339-355: the [if]/[elif]/[else] that builds [vertices]. *)
Definition boundary_vertices (lon_range lat_range : num * num) (res : Z)
  : result (list vertex) :=
  if crosses_antimeridian lon_range then
    antimeridian_vertices lon_range lat_range res
  else if full_circle lon_range then
    circle_vertices lat_range res
  else
    box_vertices lon_range lat_range res.

Definition set_map_boundary (lon_range lat_range : num * num)
    (north_pad south_pad east_pad west_pad res : Z) : Ax unit :=
  (st_lift (validate lon_range lat_range) ;;
   vertices <- st_lift (boundary_vertices lon_range lat_range res) ;;
   ax_call (set_boundary (proj_to_data (Path vertices))) ;;
   ax_call (set_extent [num_sub lon_range.1 (Int west_pad);
                        num_add lon_range.2 (Int east_pad);
                        num_sub lat_range.1 (Int south_pad);
                        num_add lat_range.2 (Int north_pad)]
                       PlateCarree))%st.

End Floats.

(** On integers no rounding takes place; the examples run the code with
    the rounding that leaves a rational as it is. *)
Definition exact : Q -> Q := fun q => q.

Definition ivertex (p : Z * Z) : vertex := (Int p.1, Int p.2).

(** ** [truncate_colormap] (util.py, lines 198-234)

    The colormap classes, [numpy.linspace], the [".2f"] float formatting
    and the registry [matplotlib.cm] are collaborators of the module.  The
    function is embedded over an arbitrary implementation of them; each
    may raise.  The registry is a finite map: [register_cmap(name, cmap)]
    either binds [name] to [cmap] or refuses, raising and leaving the
    registry as it is.  When it refuses is the registry's own rule (some
    versions of the library accept every name, others refuse a name that
    is already registered). *)

(** [not name], for [name] a string or [None]. *)
Definition falsy (name : option string) : bool :=
  match name with
  | None => true
  | Some s => bool_decide (s = "")
  end.

Section Colormaps.

Variable Colormap : Type.
Variable Samples : Type.
Variable Colors : Type.
(** [cmap.name] *)
Variable cmap_name : Colormap -> string.
(** ["{:.2f}".format(x)] *)
Variable format_2f : num -> result string.
(** [np.linspace(minval, maxval, n)] *)
Variable linspace : num -> num -> Z -> result Samples.
(** [cmap(samples)] *)
Variable lookup_colors : Colormap -> Samples -> result Colors.
(** [mpl.colors.LinearSegmentedColormap.from_list(name=name, colors=colors)] *)
Variable from_list : string -> Colors -> result Colormap.
(** The exception of [cm.register_cmap(name, cmap)] on a registry, if any. *)
Variable registry_refuses : string -> Colormap -> gmap string Colormap -> option exn.

(** ["trunc({n},{a:.2f},{b:.2f})".format(n=cmap.name, a=minval, b=maxval)] *)
Definition generated_name (cmap : Colormap) (minval maxval : num) : result string :=
  (let! a := format_2f minval in
   let! b := format_2f maxval in
   Ok ("trunc(" +:+ cmap_name cmap +:+ "," +:+ a +:+ "," +:+ b +:+ ")"))%result.

(** [cm.register_cmap(name, new_cmap)] *)
Definition register_cmap (name : string) (cmap : Colormap)
  : St (gmap string Colormap) unit :=
  fun registry =>
    match registry_refuses name cmap registry with
    | Some e => (Raise e, registry)
    | None => (Ok tt, <[name := cmap]> registry)
    end.

Definition truncate_colormap (cmap : Colormap) (minval maxval : num) (n : Z)
    (name : option string) : St (gmap string Colormap) Colormap :=
  (name <- st_lift (if falsy name then generated_name cmap minval maxval
                    else Ok (default "" name)) ;;
   samples <- st_lift (linspace minval maxval n) ;;
   colors <- st_lift (lookup_colors cmap samples) ;;
   new_cmap <- st_lift (from_list name colors) ;;
   register_cmap name new_cmap ;;
   st_ret new_cmap)%st.

End Colormaps.

Arguments generated_name {Colormap} cmap_name format_2f cmap minval maxval.
Arguments register_cmap {Colormap} registry_refuses name cmap _.
Arguments truncate_colormap {Colormap Samples Colors}
  cmap_name format_2f linspace lookup_colors from_list registry_refuses
  cmap minval maxval n name _.

(** ** A reference implementation of the collaborators

    Used to run [truncate_colormap]: colormaps are named tables of grey
    levels, sampling is exact on rationals, and [".2f"] prints the exact
    value rounded half to even to two decimals. *)

Definition round_half_even (q : Q) : Z :=
  let n := Qnum q in
  let d := Z.pos (Qden q) in
  match 2 * (n mod d) ?= d with
  | Lt => n / d
  | Gt => n / d + 1
  | Eq => if Z.even (n / d) then n / d else n / d + 1
  end.

Definition decimal (z : Z) : string :=
  NilZero.string_of_uint (N.to_uint (Z.to_N z)).

Definition format_2f_exact (x : num) : result string :=
  let cents := round_half_even (Qabs (to_Q x) * 100) in
  Ok ((if num_ltb x (Int 0) then "-" else "") +:+
      decimal (cents / 100) +:+ "." +:+
      decimal (cents mod 100 / 10) +:+ decimal (cents mod 10)).

Record gray_map : Type := GrayMap { gray_name : string; gray_levels : list Q }.

Definition gray_linspace (a b : num) (n : Z) : result (list Q) :=
  if n <? 0 then Raise (ValueError "Number of samples must be non-negative")
  else Ok ((fun i => Qred (to_Q a + inject_Z i * ((to_Q b - to_Q a) / inject_Z (n - 1))))
             <$> seqZ 0 n).

(** The level of the table entry below position [x] in [0, 1]. *)
Definition gray_level (m : gray_map) (x : Q) : Q :=
  let k := Z.of_nat (length (gray_levels m)) - 1 in
  nth (Z.to_nat (Qfloor (x * inject_Z k))) (gray_levels m) 0%Q.

Definition gray_lookup (m : gray_map) (xs : list Q) : result (list Q) :=
  Ok (gray_level m <$> xs).

Definition gray_from_list (name : string) (colors : list Q) : result gray_map :=
  Ok (GrayMap name colors).

(** Two rules of registration: a registry that accepts every name, and
    one that refuses a name it already holds. *)
Definition accepts_any : string -> gray_map -> gmap string gray_map -> option exn :=
  fun _ _ _ => None.
Definition refuses_registered
  : string -> gray_map -> gmap string gray_map -> option exn :=
  fun name _ registry =>
    match registry !! name with
    | Some _ => Some (ValueError "A colormap with this name is already registered.")
    | None => None
    end.

Definition gray_truncate
    (registry_refuses : string -> gray_map -> gmap string gray_map -> option exn) :=
  truncate_colormap gray_name format_2f_exact gray_linspace gray_lookup gray_from_list
                    registry_refuses.

Definition gray : gray_map := GrayMap "gray" [0; 1 # 4; 1 # 2; 3 # 4; 1]%Q.

(** The name generated for [gray] truncated to [[0.2, 0.8]], and the
    registry that holds one colormap under that name. *)
Definition gray_020_080 : string := "trunc(gray,0.20,0.80)".

Definition registering (c : gray_map) : gmap string gray_map :=
  <[gray_020_080 := c]> ∅.

(** ** Vocabulary of the properties *)

Definition num_lt (a b : num) : Prop := (to_Q a < to_Q b)%Q.
Definition num_le (a b : num) : Prop := (to_Q a <= to_Q b)%Q.

Definition is_float (x : num) : bool :=
  match x with Float _ => true | Int _ => false end.

(** The four validation rules of [set_map_boundary]. *)
Definition lon_order_ok (lon_range : num * num) : Prop :=
  num_lt lon_range.1 lon_range.2 \/
  (num_lt (Int 0) lon_range.1 /\ num_lt lon_range.2 (Int 0)).
Definition lat_order_ok (lat_range : num * num) : Prop :=
  num_lt lat_range.1 lat_range.2.
Definition lon_bounds_ok (lon_range : num * num) : Prop :=
  (num_le (Int (-180)) lon_range.1 /\ num_le lon_range.1 (Int 180)) /\
  (num_le (Int (-180)) lon_range.2 /\ num_le lon_range.2 (Int 180)).
Definition lat_bounds_ok (lat_range : num * num) : Prop :=
  (num_le (Int (-90)) lat_range.1 /\ num_le lat_range.1 (Int 90)) /\
  (num_le (Int (-90)) lat_range.2 /\ num_le lat_range.2 (Int 90)).

Definition valid_ranges (lon_range lat_range : num * num) : Prop :=
  lon_order_ok lon_range /\ lat_order_ok lat_range /\
  lon_bounds_ok lon_range /\ lat_bounds_ok lat_range.

(** [msg] is the message of a rule that the ranges violate. *)
Definition names_violation (lon_range lat_range : num * num) (msg : string) : Prop :=
  (msg = lon_order_msg /\ ~ lon_order_ok lon_range) \/
  (msg = lat_order_msg /\ ~ lat_order_ok lat_range) \/
  (msg = lon_bounds_msg /\ ~ lon_bounds_ok lon_range) \/
  (msg = lat_bounds_msg /\ ~ lat_bounds_ok lat_range).

(** A call that sets the centre title. *)
Definition sets_main_title (c : call) : bool :=
  match c with
  | set_title _ _ _ None => true
  | _ => false
  end.

(** Edges of a box on the integer grid: [a, a+1, ..., b] and back. *)
Definition ascending (a b : Z) : list Z := seqZ a (b - a + 1).
Definition descending (b a : Z) : list Z := reverse (ascending a b).

Definition list_min (x : Z) (l : list Z) : Z := foldr Z.min x l.
Definition list_max (x : Z) (l : list Z) : Z := foldr Z.max x l.

(** [(west, east, south, north)] of a vertex list. *)
Definition bounding_box (vs : list (Z * Z)) : option (Z * Z * Z * Z) :=
  match vs with
  | [] => None
  | v :: vs' =>
      Some (list_min v.1 (vs'.*1), list_max v.1 (vs'.*1),
            list_min v.2 (vs'.*2), list_max v.2 (vs'.*2))
  end.

(** The ranges for which the vertex generation goes through: integers, or
    any numbers on the full-circle branch. *)
Definition generates (lon_range lat_range : num * num) : Prop :=
  is_float lon_range.1 || is_float lon_range.2 ||
  is_float lat_range.1 || is_float lat_range.2 = false \/
  (to_Q lon_range.1 == -180 /\ to_Q lon_range.2 == 180)%Q.

(** Paths on the integer grid. *)
Definition south_edge (lon_min lon_max lat_min : Z) : list (Z * Z) :=
  (fun lon => (lon, lat_min)) <$> ascending lon_min lon_max.
Definition east_edge (lon_max lat_min lat_max : Z) : list (Z * Z) :=
  (fun lat => (lon_max, lat)) <$> ascending lat_min lat_max.
Definition north_edge (lon_max lon_min lat_max : Z) : list (Z * Z) :=
  (fun lon => (lon, lat_max)) <$> descending lon_max lon_min.
Definition west_edge (lon_min lat_max lat_min : Z) : list (Z * Z) :=
  (fun lat => (lon_min, lat)) <$> descending lat_max lat_min.

(** The rectangle, anticlockwise from the south-west corner. *)
Definition box_path (lon_min lon_max lat_min lat_max : Z) : list (Z * Z) :=
  south_edge lon_min lon_max lat_min ++ east_edge lon_max lat_min lat_max ++
  north_edge lon_max lon_min lat_max ++ west_edge lon_min lat_max lat_min.

(** The six edges of a region across the antimeridian. *)
Definition antimeridian_path (lon_min lon_max lat_min lat_max : Z) : list (Z * Z) :=
  south_edge lon_min 180 lat_min ++ south_edge (-180) lon_max lat_min ++
  east_edge lon_max lat_min lat_max ++
  north_edge lon_max (-180) lat_max ++ north_edge 180 lon_min lat_max ++
  west_edge lon_min lat_max lat_min.

(** [x] is immediately followed by [y] in [l]. *)
Definition adjacent {A : Type} (x y : A) (l : list A) : Prop :=
  exists pre post, l = pre ++ x :: y :: post.

(** The rectangle as the code steps it at resolution [res]. *)
Definition stepped_box_path (lon_min lon_max lat_min lat_max res : Z) : list (Z * Z) :=
  ((fun lon => (lon, lat_min)) <$> range_items lon_min (lon_max + 1) res) ++
  ((fun lat => (lon_max, lat)) <$> range_items lat_min (lat_max + 1) res) ++
  ((fun lon => (lon, lat_max)) <$> range_items lon_max (lon_min - 1) (- res)) ++
  ((fun lat => (lon_min, lat)) <$> range_items lat_max (lat_min - 1) (- res)).

(** The setters of [set_axes_limits_and_ticks], by kind. *)
Definition sets_limit (c : call) : bool :=
  match c with
  | set_xlim _ | set_ylim _ => true
  | _ => false
  end.
Definition sets_ticks (c : call) : bool :=
  match c with
  | set_xticks _ | set_yticks _ | set_xticklabels _ | set_yticklabels _ => true
  | _ => false
  end.

(** ** Tick helpers (util.py, lines 1-66)

    The calls these helpers make on an axes and on its two axis objects;
    as before an axes is the sequence of the calls it has received. *)

Inductive axis_name : Type := xaxis | yaxis.

Inductive formatter : Type :=
| LongitudeFormatter (zero_direction_label dateline_direction_label : bool)
| LatitudeFormatter.

(** [labelsize]: a size name such as ["small"], or a number of points. *)
Inductive tick_size : Type :=
| size_name (s : string)
| size_points (n : num).

Inductive tick_call : Type :=
| set_major_formatter (a : axis_name) (f : formatter)
| set_minor_locator (a : axis_name) (AutoMinorLocator_n : Z)
| minorticks_on
| tick_params_labelsize (labelsize : tick_size)
| tick_params (axis : string) (length : Z) (width : num) (which : string)
              (bottom top left right : bool).

Definition add_lat_lon_ticklabels (zero_direction_label dateline_direction_label : bool)
    (ax : list tick_call) : list tick_call :=
  let lon_formatter := LongitudeFormatter zero_direction_label dateline_direction_label in
  let lat_formatter := LatitudeFormatter in
  ax ++ [set_major_formatter xaxis lon_formatter;
         set_major_formatter yaxis lat_formatter].

(** ** The warning filters

    [warnings.filters] is a list of entries
    [(action, message, category, module, lineno)].  [simplefilter] puts its
    entry at the front, after removing an equal entry if the list has
    one; the wrappers then drop the front entry with [filters.pop(0)]. *)

Record warning_filter : Type := WarningFilter {
  wf_action : string;
  wf_message : option string;
  wf_category : string;
  wf_module : option string;
  wf_lineno : Z
}.

#[global] Instance warning_filter_eq_dec : EqDecision warning_filter.
Proof. solve_decision. Defined.

(** [l.remove(x)] inside [try: ... except ValueError: pass]: the first
    entry equal to [x] goes, and a list without one stays as it is. *)
Fixpoint remove_first (x : warning_filter) (l : list warning_filter)
  : list warning_filter :=
  match l with
  | [] => []
  | y :: l' => if decide (x = y) then l' else y :: remove_first x l'
  end.

(** [warnings.simplefilter(action, category)] *)
Definition simplefilter (action category : string) (filters : list warning_filter)
  : list warning_filter :=
  let item := WarningFilter action None category None 0 in
  item :: remove_first item filters.

Definition always_deprecation : warning_filter :=
  WarningFilter "always" None "DeprecationWarning" None 0.

Inductive outcome (E A : Type) : Type :=
| Returned (a : A)
| Thrown (e : E).
Arguments Returned {E A} a.
Arguments Thrown {E A} e.

(** ** The deprecated wrappers (util.py, lines 371-400) *)

Definition nclize_axis_msg : string :=
  "geocat.viz.util.nclize_axis: This function has been " +:+
  "deprecated, please use geocat.viz.util.add_major_minor_ticks" +:+
  " instead.".

Definition make_byr_cmap_msg : string :=
  "geocat.viz.util.make_byr_cmap: This function has been " +:+
  "deprecated, please use geocat.viz.cmaps.BlueYellowRed " +:+
  "instead.".

Section Deprecated.

Variable round64 : Q -> Q.

(** What [warnings.warn] may raise, and [warnings.warn] itself: given the
    filters in force, the message, the category and the stack level, it
    returns ([None]) or raises.  It does not touch the list of filters. *)
Variable Exc : Type.
Variable warn : list warning_filter -> string -> string -> Z -> option Exc.

(** [cmaps.BlueYellowRed] *)
Variable Cmap : Type.
Variable BlueYellowRed : Cmap.

Inductive raised : Type :=
| IndexError (msg : string)
| WarnRaised (e : Exc).

(** Lines 24-66. *)
Definition add_major_minor_ticks (x_minor_per_major y_minor_per_major : Z)
    (labelsize : tick_size) (ax : list tick_call) : list tick_call :=
  ax ++ [tick_params_labelsize labelsize;
         minorticks_on;
         set_minor_locator xaxis x_minor_per_major;
         set_minor_locator yaxis y_minor_per_major;
         tick_params "both" 8 (Float (round64 (9 # 10))) "major" true true true true;
         tick_params "both" 4 (Float (round64 (4 # 10))) "minor" true true true true].

(** The three lines both wrappers start with:
    [warnings.simplefilter('always', DeprecationWarning)],
    [warnings.warn(message, DeprecationWarning, stacklevel=2)],
    [warnings.filters.pop(0)]. *)
Definition warn_deprecated (message : string) (filters : list warning_filter)
  : outcome raised unit * list warning_filter :=
  let filters := simplefilter "always" "DeprecationWarning" filters in
  match warn filters message "DeprecationWarning" 2 with
  | Some e => (Thrown (WarnRaised e), filters)
  | None =>
      match filters with
      | [] => (Thrown (IndexError "pop from empty list"), filters)
      | _ :: rest => (Returned tt, rest)
      end
  end.

(** Lines 371-384; the state is the filters and the axes. *)
Definition nclize_axis (minor_per_major : Z)
    (state : list warning_filter * list tick_call)
  : outcome raised unit * (list warning_filter * list tick_call) :=
  match warn_deprecated nclize_axis_msg state.1 with
  | (Thrown e, filters) => (Thrown e, (filters, state.2))
  | (Returned _, filters) =>
      (Returned tt,
       (filters,
        add_major_minor_ticks minor_per_major minor_per_major (size_name "small") state.2))
  end.

(** Lines 386-400. *)
Definition make_byr_cmap (filters : list warning_filter)
  : outcome raised Cmap * list warning_filter :=
  match warn_deprecated make_byr_cmap_msg filters with
  | (Thrown e, filters) => (Thrown e, filters)
  | (Returned _, filters) => (Returned BlueYellowRed, filters)
  end.

End Deprecated.

Arguments IndexError {Exc} msg.
Arguments WarnRaised {Exc} e.
Arguments warn_deprecated {Exc} warn message filters.
Arguments nclize_axis round64 {Exc} warn minor_per_major state.
Arguments make_byr_cmap {Exc} warn {Cmap} BlueYellowRed filters.

(** A [warn] that shows every warning, and one whose hook raises. *)
Definition warn_shows : list warning_filter -> string -> string -> Z -> option exn :=
  fun _ _ _ _ => None.
Definition warn_hook_raises : list warning_filter -> string -> string -> Z -> option exn :=
  fun _ _ _ _ => Some (TypeError "showwarning hook").

Definition ignore_deprecation : warning_filter :=
  WarningFilter "ignore" None "DeprecationWarning" None 0.

(** The six edges across the antimeridian as the code steps them at
    resolution [res]. *)
Definition stepped_antimeridian_path (lon_min lon_max lat_min lat_max res : Z)
  : list (Z * Z) :=
  ((fun lon => (lon, lat_min)) <$> range_items lon_min (180 + 1) res) ++
  ((fun lon => (lon, lat_min)) <$> range_items (-180) (lon_max + 1) res) ++
  ((fun lat => (lon_max, lat)) <$> range_items lat_min (lat_max + 1) res) ++
  ((fun lon => (lon, lat_max)) <$> range_items lon_max (-180 - 1) (- res)) ++
  ((fun lon => (lon, lat_max)) <$> range_items 180 (lon_min - 1) (- res)) ++
  ((fun lat => (lon_min, lat)) <$> range_items lat_max (lat_min - 1) (- res)).

(** The pairs of consecutive elements of a list. *)
Definition consecutive {A : Type} (l : list A) : list (A * A) := zip l (tail l).

(** * Properties *)

(** ** Running the code *)

Example range_up : range (Int 170) (Int 181) (Int 3) = Ok [170; 173; 176; 179].
Proof. reflexivity. Qed.

Example range_down : range (Int 2) (Int (-3)) (Int (-2)) = Ok [2; 0; -2].
Proof. reflexivity. Qed.

Example range_empty : range (Int 5) (Int 5) (Int 1) = Ok [].
Proof. reflexivity. Qed.

Example range_float :
  range (Int 5) (Float (21 # 2)) (Int 1) = Raise (TypeError float_not_integer).
Proof. reflexivity. Qed.

Example titles_main_only :
  set_titles_and_labels exact (Some "T") 18 None 18 None 18 None None 16 [] =
  (Ok tt, [set_title "T" 18 (y_row exact) None]).
Proof. reflexivity. Qed.

Example titles_main_and_left :
  set_titles_and_labels exact (Some "T") 18 (Some "L") 18 None 18 (Some "x") None 16 [] =
  (Ok tt, [set_title "T" 20 (y_above_row exact) None;
           set_title "L" 18 (y_row exact) (Some loc_left);
           set_xlabel "x" 16]).
Proof. reflexivity. Qed.

Example box_small :
  boundary_vertices exact (Int 10, Int 12) (Int 0, Int 1) 1 =
  Ok (ivertex <$> [(10, 0); (11, 0); (12, 0); (12, 0); (12, 1);
                   (12, 1); (11, 1); (10, 1); (10, 1); (10, 0)]).
Proof. reflexivity. Qed.

Example antimeridian_small :
  boundary_vertices exact (Int 179, Int (-179)) (Int 0, Int 1) 1 =
  Ok (ivertex <$> [(179, 0); (180, 0); (-180, 0); (-179, 0); (-179, 0); (-179, 1);
                   (-179, 1); (-180, 1); (180, 1); (179, 1); (179, 1); (179, 0)]).
Proof. reflexivity. Qed.

Example circle_coarse :
  boundary_vertices exact (Int (-180), Int 180) (Int 60, Int 90) 90 =
  Ok (ivertex <$> [(0, 60); (90, 60); (180, 60); (270, 60); (360, 60)]).
Proof. reflexivity. Qed.

Example format_2f_examples :
  format_2f_exact (Float (2 # 10)) = Ok "0.20" /\
  format_2f_exact (Int 1) = Ok "1.00" /\
  format_2f_exact (Float (1 # 8)) = Ok "0.12" /\
  format_2f_exact (Float (3 # 8)) = Ok "0.38" /\
  format_2f_exact (Float (-1 # 1000)) = Ok "-0.00".
Proof. repeat split; reflexivity. Qed.

Example generated_name_gray :
  generated_name gray_name format_2f_exact gray (Float (2 # 10)) (Float (8 # 10)) =
  Ok "trunc(gray,0.20,0.80)".
Proof. reflexivity. Qed.

(** ** The cosmetic setters *)

Ltac run_ax :=
  unfold set_titles_and_labels, set_axes_limits_and_ticks, if_not_None,
         st_bind, st_ret, st_lift, ax_call; cbn;
  rewrite <- ?app_assoc, ?app_nil_r; cbn.

Section SetterProperties.

Variable round64 : Q -> Q.

(** C7. With [None] for every optional content parameter, neither
    [set_titles_and_labels] nor [set_axes_limits_and_ticks] calls any
    setter: the axes comes back as it was received, whatever the font
    sizes are. *)
Theorem setters_all_None_leave_axes (ax : Axes) (mfs lfs rfs labfs : Z) :
  set_titles_and_labels round64 None mfs None lfs None rfs None None labfs ax = (Ok tt, ax) /\
  set_axes_limits_and_ticks None None None None None None ax = (Ok tt, ax).
Proof. split; reflexivity. Qed.

(** Each setter is guarded by its own parameter: the calls issued are
    those of the parameters that are not [None], in the order of the
    source. *)
Lemma set_axes_limits_and_ticks_calls (ax : Axes) xlim ylim xticks yticks xtl ytl :
  set_axes_limits_and_ticks xlim ylim xticks yticks xtl ytl ax =
  (Ok tt, ax ++ option_list (set_xticks <$> xticks) ++ option_list (set_yticks <$> yticks) ++
          option_list (set_xticklabels <$> xtl) ++ option_list (set_yticklabels <$> ytl) ++
          option_list (set_xlim <$> xlim) ++ option_list (set_ylim <$> ylim)).
Proof.
  destruct xlim, ylim, xticks, yticks, xtl, ytl; run_ax; reflexivity.
Qed.

(** C10. When [maintitle] is given, the centre title is set once: with
    font size [maintitlefontsize + 2] at [y = 1.12] if a left or a right
    title is given, and with [maintitlefontsize] at [y = 1.04] if neither
    is. *)
Theorem maintitle_size_and_height (ax : Axes) (maintitle : string) (mfs : Z)
    (lefttitle : option string) (lfs : Z) (righttitle : option string) (rfs : Z)
    (xlabel ylabel : option string) (labfs : Z) :
  ((lefttitle <> None \/ righttitle <> None) ->
   exists rest,
     set_titles_and_labels round64 (Some maintitle) mfs lefttitle lfs righttitle rfs
                           xlabel ylabel labfs ax =
     (Ok tt, ax ++ set_title maintitle (mfs + 2) (Float (round64 (112 # 100))) None :: rest) /\
     Forall (fun c => sets_main_title c = false) rest) /\
  ((lefttitle = None /\ righttitle = None) ->
   exists rest,
     set_titles_and_labels round64 (Some maintitle) mfs lefttitle lfs righttitle rfs
                           xlabel ylabel labfs ax =
     (Ok tt, ax ++ set_title maintitle mfs (Float (round64 (104 # 100))) None :: rest) /\
     Forall (fun c => sets_main_title c = false) rest).
Proof.
  split.
  - intros Hrow.
    destruct lefttitle as [l|], righttitle as [r|], xlabel as [x|], ylabel as [y|];
      try (destruct Hrow; congruence); run_ax;
      eexists; (split; [reflexivity | repeat constructor]).
  - intros [-> ->].
    destruct xlabel as [x|], ylabel as [y|]; run_ax;
      eexists; (split; [reflexivity | repeat constructor]).
Qed.

End SetterProperties.

Lemma maintitle_size_and_height_witness :
  (exists rest,
     set_titles_and_labels exact (Some "Zonal wind") 18 (Some "U") 18 None 18
                           None None 16 [] =
     (Ok tt, [] ++ set_title "Zonal wind" (18 + 2) (Float (exact (112 # 100))) None :: rest) /\
     Forall (fun c => sets_main_title c = false) rest) /\
  (exists rest,
     set_titles_and_labels exact (Some "Zonal wind") 18 None 18 None 18
                           (Some "lon") None 16 [] =
     (Ok tt, [] ++ set_title "Zonal wind" 18 (Float (exact (104 # 100))) None :: rest) /\
     Forall (fun c => sets_main_title c = false) rest).
Proof.
  split.
  - apply (maintitle_size_and_height exact [] "Zonal wind" 18 (Some "U") 18 None 18
                                     None None 16).
    left; discriminate.
  - apply (maintitle_size_and_height exact [] "Zonal wind" 18 None 18 None 18
                                     (Some "lon") None 16).
    split; reflexivity.
Defined.

(** ** Colormap truncation *)

Section ColormapProperties.

Context {Colormap Samples Colors : Type}.
Variable cmap_name : Colormap -> string.
Variable format_2f : num -> result string.
Variable linspace : num -> num -> Z -> result Samples.
Variable lookup_colors : Colormap -> Samples -> result Colors.
Variable from_list : string -> Colors -> result Colormap.
Variable registry_refuses : string -> Colormap -> gmap string Colormap -> option exn.

(** A call without a name that returns has generated its name from
    [cmap.name], [minval] and [maxval] and bound it to the colormap it
    returns; on any other registry the same call builds the same colormap
    under the same name, and what happens then is up to the registry. *)
Lemma truncate_colormap_returns cmap minval maxval n
    (registry registry' : gmap string Colormap) (c : Colormap) :
  truncate_colormap cmap_name format_2f linspace lookup_colors from_list registry_refuses
                    cmap minval maxval n None registry = (Ok c, registry') ->
  exists name,
    generated_name cmap_name format_2f cmap minval maxval = Ok name /\
    registry' = <[name := c]> registry /\
    forall reg,
      truncate_colormap cmap_name format_2f linspace lookup_colors from_list
                        registry_refuses cmap minval maxval n None reg =
      match registry_refuses name c reg with
      | Some e => (Raise e, reg)
      | None => (Ok c, <[name := c]> reg)
      end.
Proof.
  unfold truncate_colormap, st_bind, st_lift, st_ret, register_cmap; cbn.
  destruct (generated_name cmap_name format_2f cmap minval maxval) as [name|]; [|discriminate].
  destruct (linspace minval maxval n) as [samples|]; [|discriminate].
  destruct (lookup_colors cmap samples) as [colors|]; [|discriminate].
  destruct (from_list name colors) as [new_cmap|]; [|discriminate].
  destruct (registry_refuses name new_cmap registry); [discriminate|].
  intros [= <- <-]. exists name. repeat split.
  intros reg. now destruct (registry_refuses name new_cmap reg).
Qed.

(** C6, as the code has it.  Two calls with the same
    [(cmap, minval, maxval, n)] and no explicit name: when the first
    returns, it has registered its colormap under the generated name, and
    the second call computes the same name and the same colormap and
    hands them to [register_cmap].  Either the registry accepts, and the
    second call returns that colormap with the registry as the first call
    left it, or it refuses, and the second call raises with the registry
    as the first call left it.  Either way the name resolves to the
    colormap of the first call. *)
Theorem truncate_colormap_same_name cmap minval maxval n
    (registry registry1 : gmap string Colormap) (c : Colormap) :
  truncate_colormap cmap_name format_2f linspace lookup_colors from_list registry_refuses
                    cmap minval maxval n None registry = (Ok c, registry1) ->
  exists name,
    generated_name cmap_name format_2f cmap minval maxval = Ok name /\
    registry1 = <[name := c]> registry /\
    registry1 !! name = Some c /\
    ((registry_refuses name c registry1 = None /\
      truncate_colormap cmap_name format_2f linspace lookup_colors from_list
                        registry_refuses cmap minval maxval n None registry1 =
      (Ok c, registry1)) \/
     (exists e,
        registry_refuses name c registry1 = Some e /\
        truncate_colormap cmap_name format_2f linspace lookup_colors from_list
                          registry_refuses cmap minval maxval n None registry1 =
        (Raise e, registry1))).
Proof.
  intros Hfirst.
  destruct (truncate_colormap_returns _ _ _ _ _ _ _ Hfirst) as (name & Hname & -> & Hany).
  exists name. split; [exact Hname|]. split; [reflexivity|].
  split; [apply lookup_insert_eq|].
  rewrite Hany.
  destruct (registry_refuses name c (<[name := c]> registry)) as [e|].
  - right. exists e. split; reflexivity.
  - left. split; [reflexivity|]. now rewrite insert_insert_eq.
Qed.

(** C9, as the code has it.  The generated name is a function of
    [cmap.name], [minval] and [maxval] only.  After a returning call with
    [n1], a call that differs in [n] alone hands its colormap to
    [register_cmap] under that same name: if it returns, its colormap has
    replaced the first one and the registry is as if the first call had
    not happened; if it raises, for instance because the registry refuses
    a name it already holds, the first colormap stays registered. *)
Theorem truncate_colormap_name_ignores_n cmap minval maxval n1 n2
    (registry registry1 registry2 : gmap string Colormap) (c1 : Colormap)
    (second : result Colormap) :
  truncate_colormap cmap_name format_2f linspace lookup_colors from_list registry_refuses
                    cmap minval maxval n1 None registry = (Ok c1, registry1) ->
  truncate_colormap cmap_name format_2f linspace lookup_colors from_list registry_refuses
                    cmap minval maxval n2 None registry1 = (second, registry2) ->
  exists name,
    generated_name cmap_name format_2f cmap minval maxval = Ok name /\
    registry1 = <[name := c1]> registry /\
    registry1 !! name = Some c1 /\
    match second with
    | Ok c2 =>
        registry_refuses name c2 registry1 = None /\
        registry2 = <[name := c2]> registry /\
        registry2 !! name = Some c2
    | Raise _ => registry2 = registry1 /\ registry2 !! name = Some c1
    end.
Proof.
  intros Hfirst Hsecond.
  destruct (truncate_colormap_returns _ _ _ _ _ _ _ Hfirst) as (name & Hname & -> & _).
  exists name. split; [exact Hname|]. split; [reflexivity|].
  split; [apply lookup_insert_eq|].
  revert Hsecond.
  unfold truncate_colormap, st_bind, st_lift, st_ret, register_cmap; cbn.
  rewrite Hname.
  destruct (linspace minval maxval n2) as [samples|];
    [|intros [= <- <-]; split; [reflexivity | apply lookup_insert_eq]].
  destruct (lookup_colors cmap samples) as [colors|];
    [|intros [= <- <-]; split; [reflexivity | apply lookup_insert_eq]].
  destruct (from_list name colors) as [c2|];
    [|intros [= <- <-]; split; [reflexivity | apply lookup_insert_eq]].
  destruct (registry_refuses name c2 (<[name := c1]> registry)) as [e|] eqn:Hrefuses;
    intros [= <- <-].
  - split; [reflexivity | apply lookup_insert_eq].
  - split; [exact Hrefuses|]. split; [apply insert_insert_eq | apply lookup_insert_eq].
Qed.

End ColormapProperties.

Lemma truncate_colormap_same_name_witness :
  let c := GrayMap gray_020_080 [0; 1 # 2; 3 # 4]%Q in
  exists name,
    generated_name gray_name format_2f_exact gray (Float (2 # 10)) (Float (8 # 10)) =
    Ok name /\
    registering c = <[name := c]> ∅ /\
    registering c !! name = Some c /\
    ((accepts_any name c (registering c) = None /\
      gray_truncate accepts_any gray (Float (2 # 10)) (Float (8 # 10)) 3 None
                    (registering c) = (Ok c, registering c)) \/
     (exists e,
        accepts_any name c (registering c) = Some e /\
        gray_truncate accepts_any gray (Float (2 # 10)) (Float (8 # 10)) 3 None
                      (registering c) = (Raise e, registering c))).
Proof.
  intros c.
  apply (truncate_colormap_same_name gray_name format_2f_exact gray_linspace gray_lookup
           gray_from_list accepts_any gray (Float (2 # 10)) (Float (8 # 10)) 3 ∅).
  reflexivity.
Defined.

(** C6 as stated fails on a registry that refuses a name it already
    holds: the first call registers, the second call, with the same
    arguments, raises and registers nothing. *)
Lemma second_call_refused_on_registered_name :
  let c := GrayMap gray_020_080 [0; 1 # 2; 3 # 4]%Q in
  gray_truncate refuses_registered gray (Float (2 # 10)) (Float (8 # 10)) 3 None ∅ =
  (Ok c, registering c) /\
  gray_truncate refuses_registered gray (Float (2 # 10)) (Float (8 # 10)) 3 None
                (registering c) =
  (Raise (ValueError "A colormap with this name is already registered."), registering c).
Proof. split; reflexivity. Qed.

Lemma truncate_colormap_name_ignores_n_witness :
  let c1 := GrayMap gray_020_080 [0; 3 # 4]%Q in
  let c2 := GrayMap gray_020_080 [0; 1 # 2; 3 # 4]%Q in
  c1 <> c2 /\
  exists name,
    generated_name gray_name format_2f_exact gray (Float (2 # 10)) (Float (8 # 10)) =
    Ok name /\
    registering c1 = <[name := c1]> ∅ /\
    registering c1 !! name = Some c1 /\
    (accepts_any name c2 (registering c1) = None /\
     registering c2 = <[name := c2]> ∅ /\
     registering c2 !! name = Some c2).
Proof.
  intros c1 c2. split; [discriminate|].
  apply (truncate_colormap_name_ignores_n gray_name format_2f_exact gray_linspace
           gray_lookup gray_from_list accepts_any gray (Float (2 # 10)) (Float (8 # 10))
           2 3 ∅ (registering c1) (registering c2) c1 (Ok c2)).
  - reflexivity.
  - reflexivity.
Defined.

(** C9 as stated fails on a registry that refuses a name it already
    holds: the call with [n = 3] computes the name of the call with
    [n = 2], is refused, and the colormap of the first call stays
    registered instead of being overwritten. *)
Lemma second_n_refused_first_colormap_stays :
  let c1 := GrayMap gray_020_080 [0; 3 # 4]%Q in
  let c2 := GrayMap gray_020_080 [0; 1 # 2; 3 # 4]%Q in
  c1 <> c2 /\
  gray_truncate refuses_registered gray (Float (2 # 10)) (Float (8 # 10)) 2 None ∅ =
  (Ok c1, registering c1) /\
  gray_truncate accepts_any gray (Float (2 # 10)) (Float (8 # 10)) 3 None ∅ =
  (Ok c2, registering c2) /\
  gray_truncate refuses_registered gray (Float (2 # 10)) (Float (8 # 10)) 3 None
                (registering c1) =
  (Raise (ValueError "A colormap with this name is already registered."), registering c1) /\
  registering c1 !! gray_020_080 = Some c1.
Proof. intros c1 c2. split; [discriminate|]. repeat split; reflexivity. Qed.

(** ** Comparisons of numbers *)

Lemma num_compare_Int (x y : Z) : num_compare (Int x) (Int y) = (x ?= y).
Proof. unfold num_compare, Qcompare; cbn. now rewrite !Z.mul_1_r. Qed.

Lemma num_ltb_Int (x y : Z) : num_ltb (Int x) (Int y) = (x <? y).
Proof. unfold num_ltb. now rewrite num_compare_Int. Qed.

Lemma num_gtb_Int (x y : Z) : num_gtb (Int x) (Int y) = (x >? y).
Proof. unfold num_gtb. now rewrite num_compare_Int. Qed.

Lemma num_leb_Int (x y : Z) : num_leb (Int x) (Int y) = (x <=? y).
Proof. unfold num_leb. now rewrite num_compare_Int. Qed.

Lemma num_geb_Int (x y : Z) : num_geb (Int x) (Int y) = (x >=? y).
Proof. unfold num_geb. now rewrite num_compare_Int. Qed.

Lemma num_eqb_Int (x y : Z) : num_eqb (Int x) (Int y) = (x =? y).
Proof.
  unfold num_eqb. rewrite num_compare_Int.
  destruct (Z.eqb_spec x y) as [->|Hne].
  - now rewrite Z.compare_refl.
  - destruct (Z.compare_spec x y); congruence.
Qed.

Lemma num_lt_Int (x y : Z) : num_lt (Int x) (Int y) <-> x < y.
Proof. unfold num_lt; cbn [to_Q]. now rewrite <- Zlt_Qlt. Qed.

Lemma num_le_Int (x y : Z) : num_le (Int x) (Int y) <-> x <= y.
Proof. unfold num_le; cbn [to_Q]. now rewrite <- Zle_Qle. Qed.

(** Case analysis on every comparison of the goal, each case carrying the
    order fact on the rational values. *)
Ltac num_cases :=
  unfold num_ltb, num_gtb, num_leb, num_geb, num_eqb, num_compare,
         num_lt, num_le in *;
  repeat match goal with
         | |- context [Qcompare ?x ?y] => destruct (Qcompare_spec x y)
         end;
  cbn [andb orb negb to_Q] in *; unfold inject_Z in *.

Lemma num_ltb_lt (a b : num) : num_ltb a b = true <-> num_lt a b.
Proof. num_cases; split; intros; try lra; try easy. Qed.

Lemma num_gtb_lt (a b : num) : num_gtb a b = true <-> num_lt b a.
Proof. num_cases; split; intros; try lra; try easy. Qed.

Lemma num_leb_le (a b : num) : num_leb a b = true <-> num_le a b.
Proof. num_cases; split; intros; try lra; try easy. Qed.

Lemma num_geb_le (a b : num) : num_geb a b = true <-> num_le b a.
Proof. num_cases; split; intros; try lra; try easy. Qed.

Lemma num_eqb_eq (a b : num) : num_eqb a b = true <-> (to_Q a == to_Q b)%Q.
Proof. num_cases; split; intros; try lra; try easy. Qed.

(** ** Validation of the ranges *)

Lemma lon_order_check (lon_range : num * num) :
  num_geb lon_range.1 lon_range.2 &&
  negb (num_gtb lon_range.1 (Int 0) && num_ltb lon_range.2 (Int 0)) = false <->
  lon_order_ok lon_range.
Proof.
  unfold lon_order_ok. destruct lon_range as [a b]; cbn [fst snd].
  num_cases; split; intros; try lra; try easy; try (right; lra); try (left; lra).
Qed.

Lemma lat_order_check (lat_range : num * num) :
  num_geb lat_range.1 lat_range.2 = false <-> lat_order_ok lat_range.
Proof.
  unfold lat_order_ok. destruct lat_range as [a b]; cbn [fst snd].
  num_cases; split; intros; try lra; try easy.
Qed.

Lemma bounds_check (a b : num) (m : Z) :
  num_gtb a (Int m) || num_ltb a (Int (- m)) ||
  num_gtb b (Int m) || num_ltb b (Int (- m)) = false <->
  (num_le (Int (- m)) a /\ num_le a (Int m)) /\
  (num_le (Int (- m)) b /\ num_le b (Int m)).
Proof.
  num_cases; split; intros; try lra; try easy; repeat split; lra.
Qed.

Lemma lon_bounds_check (lon_range : num * num) :
  num_gtb lon_range.1 (Int 180) || num_ltb lon_range.1 (Int (-180)) ||
  num_gtb lon_range.2 (Int 180) || num_ltb lon_range.2 (Int (-180)) = false <->
  lon_bounds_ok lon_range.
Proof. apply (bounds_check _ _ 180). Qed.

Lemma lat_bounds_check (lat_range : num * num) :
  num_gtb lat_range.1 (Int 90) || num_ltb lat_range.1 (Int (-90)) ||
  num_gtb lat_range.2 (Int 90) || num_ltb lat_range.2 (Int (-90)) = false <->
  lat_bounds_ok lat_range.
Proof. apply (bounds_check _ _ 90). Qed.

Lemma validate_Ok (lon_range lat_range : num * num) :
  validate lon_range lat_range = Ok tt <-> valid_ranges lon_range lat_range.
Proof.
  unfold valid_ranges.
  rewrite <- lon_order_check, <- lat_order_check, <- lon_bounds_check, <- lat_bounds_check.
  unfold validate, raise_if, rbind.
  repeat match goal with
         | |- context [if ?c then _ else _] => destruct c
         end; intuition congruence.
Qed.

Lemma validate_Raise (lon_range lat_range : num * num) :
  ~ valid_ranges lon_range lat_range ->
  exists msg,
    validate lon_range lat_range = Raise (ValueError msg) /\
    names_violation lon_range lat_range msg.
Proof.
  intros Hbad. unfold validate, raise_if, rbind, names_violation.
  match goal with |- context [if ?c then _ else _] => destruct c eqn:Hlon_order end.
  { exists lon_order_msg. split; [reflexivity|]. left. split; [reflexivity|].
    rewrite <- lon_order_check. congruence. }
  match goal with |- context [if ?c then _ else _] => destruct c eqn:Hlat_order end.
  { exists lat_order_msg. split; [reflexivity|]. right; left. split; [reflexivity|].
    rewrite <- lat_order_check. congruence. }
  match goal with |- context [if ?c then _ else _] => destruct c eqn:Hlon_bounds end.
  { exists lon_bounds_msg. split; [reflexivity|]. right; right; left. split; [reflexivity|].
    rewrite <- lon_bounds_check. congruence. }
  match goal with |- context [if ?c then _ else _] => destruct c eqn:Hlat_bounds end.
  { exists lat_bounds_msg. split; [reflexivity|]. right; right; right. split; [reflexivity|].
    rewrite <- lat_bounds_check. congruence. }
  exfalso. apply Hbad. unfold valid_ranges.
  rewrite <- lon_order_check, <- lat_order_check, <- lon_bounds_check, <- lat_bounds_check.
  auto.
Qed.

(** ** Errors of [range] inside the vertex generation *)

Lemma range_Int (a b s : Z) :
  s <> 0 -> range (Int a) (Int b) (Int s) = Ok (range_items a b s).
Proof. intros Hs. unfold range; cbn. now destruct (Z.eqb_spec s 0). Qed.

Lemma range_Raise (a b : num) (s : Z) (e : exn) :
  s <> 0 -> range a b (Int s) = Raise e -> e = TypeError float_not_integer.
Proof.
  intros Hs. unfold range.
  destruct a, b; cbn; destruct (Z.eqb_spec s 0); congruence.
Qed.

Section BoundaryErrors.

Variable round64 : Q -> Q.

(** Whatever raises while the vertices are built with a nonzero step is
    the [TypeError] of [range] on a [float]. *)
Lemma boundary_vertices_Raise (lon_range lat_range : num * num) (res : Z) (e : exn) :
  res <> 0 ->
  boundary_vertices round64 lon_range lat_range res = Raise e ->
  e = TypeError float_not_integer.
Proof.
  intros Hres.
  assert (Hneg : - res <> 0) by lia.
  unfold boundary_vertices, antimeridian_vertices, circle_vertices, box_vertices, rbind.
  repeat match goal with
         | |- context [match range ?a ?b (Int ?s) with _ => _ end] =>
             let H := fresh "Hrange" in
             destruct (range a b (Int s)) eqn:H;
             [| apply range_Raise in H; [| assumption]]
         | |- context [if ?c then _ else _] => destruct c
         end; congruence.
Qed.

End BoundaryErrors.

Lemma range_Float_start (q : Q) (b s : num) :
  range (Float q) b s = Raise (TypeError float_not_integer).
Proof. reflexivity. Qed.

Lemma range_Float_stop (a : Z) (q : Q) (s : num) :
  range (Int a) (Float q) s = Raise (TypeError float_not_integer).
Proof. reflexivity. Qed.

Lemma range_items_cons (a b s : Z) :
  0 < s -> a < b -> exists tail, range_items a b s = a :: tail.
Proof.
  intros Hs Hab. unfold range_items, range_length.
  destruct (Z.ltb_spec 0 s); [|lia]. destruct (Z.ltb_spec a b); [|lia].
  assert (0 <= (b - a - 1) / s) by (apply Z.div_pos; lia).
  rewrite seqZ_cons by lia. cbn. rewrite Z.add_0_r. eauto.
Qed.

(** Runs the calls of [range] of a vertex generation, in order. *)
Ltac run_ranges Hres :=
  cbn [fst snd num_add num_sub];
  repeat (first [ rewrite range_Float_start
                | rewrite range_Float_stop
                | rewrite range_Int by (clear - Hres; lia) ];
          cbn [rbind]).

(** ** What [set_map_boundary] does, step by step *)

Section BoundaryRuns.

Variable round64 : Q -> Q.

Lemma set_map_boundary_run lon_range lat_range north_pad south_pad east_pad west_pad res ax :
  set_map_boundary round64 lon_range lat_range north_pad south_pad east_pad west_pad res ax =
  match validate lon_range lat_range with
  | Raise e => (Raise e, ax)
  | Ok _ =>
      match boundary_vertices round64 lon_range lat_range res with
      | Raise e => (Raise e, ax)
      | Ok vertices =>
          (Ok tt, ax ++ [set_boundary (proj_to_data (Path vertices));
                         set_extent [num_sub round64 lon_range.1 (Int west_pad);
                                     num_add round64 lon_range.2 (Int east_pad);
                                     num_sub round64 lat_range.1 (Int south_pad);
                                     num_add round64 lat_range.2 (Int north_pad)]
                                    PlateCarree])
      end
  end.
Proof.
  unfold set_map_boundary, st_bind, st_lift, ax_call.
  destruct (validate lon_range lat_range); [|reflexivity].
  destruct (boundary_vertices round64 lon_range lat_range res); [|reflexivity].
  now rewrite <- app_assoc.
Qed.

(** C4. Ranges that violate a validation rule make [set_map_boundary]
    raise a [ValueError] whose message is that of a violated rule, with
    the axes untouched; ranges that satisfy the four rules never make it
    raise a [ValueError], for a positive resolution. *)
Theorem set_map_boundary_validation lon_range lat_range
    north_pad south_pad east_pad west_pad res (ax : Axes) :
  (~ valid_ranges lon_range lat_range ->
   exists msg,
     set_map_boundary round64 lon_range lat_range
                      north_pad south_pad east_pad west_pad res ax =
     (Raise (ValueError msg), ax) /\
     names_violation lon_range lat_range msg) /\
  (valid_ranges lon_range lat_range -> 0 < res ->
   forall msg ax',
     set_map_boundary round64 lon_range lat_range
                      north_pad south_pad east_pad west_pad res ax <>
     (Raise (ValueError msg), ax')).
Proof.
  rewrite set_map_boundary_run. split.
  - intros Hbad. destruct (validate_Raise _ _ Hbad) as (msg & -> & Hmsg). eauto.
  - intros Hok Hres msg ax'. apply validate_Ok in Hok as ->.
    destruct (boundary_vertices round64 lon_range lat_range res) eqn:Hv; [discriminate|].
    apply boundary_vertices_Raise in Hv as ->; [discriminate | lia].
Qed.

(** Of the ranges that pass validation, only [(-180, 180)] reaches the
    full-circle branch: [(180, -180)] is taken by the antimeridian branch
    before it, and equal endpoints are rejected. *)
Lemma full_circle_branch (lon_range : num * num) :
  lon_order_ok lon_range ->
  crosses_antimeridian lon_range = false ->
  full_circle lon_range = true ->
  (to_Q lon_range.1 == -180 /\ to_Q lon_range.2 == 180)%Q.
Proof.
  unfold lon_order_ok, crosses_antimeridian, full_circle.
  destruct lon_range as [a b]; cbn [fst snd].
  num_cases; intros [Hlt|[Hpos Hneg]] Hcross Hfull; try discriminate; split; lra.
Qed.

Lemma full_circle_taken (lon_range : num * num) :
  (to_Q lon_range.1 == -180 /\ to_Q lon_range.2 == 180)%Q ->
  crosses_antimeridian lon_range = false /\ full_circle lon_range = true.
Proof.
  unfold crosses_antimeridian, full_circle.
  destruct lon_range as [a b]; cbn [fst snd].
  num_cases; intros [Ha Hb]; split; try reflexivity; lra.
Qed.

Lemma antimeridian_vertices_float lon_range lat_range res :
  res <> 0 ->
  is_float lon_range.1 || is_float lon_range.2 ||
  is_float lat_range.1 || is_float lat_range.2 = true ->
  antimeridian_vertices round64 lon_range lat_range res =
  Raise (TypeError float_not_integer).
Proof.
  intros Hres Hfloat.
  destruct lon_range as [[a|a] [b|b]], lat_range as [[c|c] [d|d]];
    cbn in Hfloat; try discriminate;
    unfold antimeridian_vertices; run_ranges Hres; reflexivity.
Qed.

Lemma box_vertices_float lon_range lat_range res :
  res <> 0 ->
  is_float lon_range.1 || is_float lon_range.2 ||
  is_float lat_range.1 || is_float lat_range.2 = true ->
  box_vertices round64 lon_range lat_range res =
  Raise (TypeError float_not_integer).
Proof.
  intros Hres Hfloat.
  destruct lon_range as [[a|a] [b|b]], lat_range as [[c|c] [d|d]];
    cbn in Hfloat; try discriminate;
    unfold box_vertices; run_ranges Hres; reflexivity.
Qed.

(** C8, as the code has it.  Ranges that pass validation and hold a
    [float] make the vertex generation raise the [TypeError] of [range],
    with the axes untouched, for a nonzero resolution, unless
    [lon_range] is [(-180, 180)]: the full-circle branch passes no entry
    of the ranges to [range]. *)
Theorem float_in_ranges_raises_TypeError lon_range lat_range
    north_pad south_pad east_pad west_pad res (ax : Axes) :
  valid_ranges lon_range lat_range ->
  res <> 0 ->
  is_float lon_range.1 || is_float lon_range.2 ||
  is_float lat_range.1 || is_float lat_range.2 = true ->
  ~ (to_Q lon_range.1 == -180 /\ to_Q lon_range.2 == 180)%Q ->
  set_map_boundary round64 lon_range lat_range
                   north_pad south_pad east_pad west_pad res ax =
  (Raise (TypeError float_not_integer), ax).
Proof.
  intros Hvalid Hres Hfloat Hnot_circle.
  rewrite set_map_boundary_run.
  pose proof Hvalid as (Horder & _). apply validate_Ok in Hvalid as ->.
  unfold boundary_vertices.
  destruct (crosses_antimeridian lon_range) eqn:Hcross.
  - now rewrite antimeridian_vertices_float.
  - destruct (full_circle lon_range) eqn:Hfull.
    + exfalso. apply Hnot_circle. now apply full_circle_branch.
    + now rewrite box_vertices_float.
Qed.

End BoundaryRuns.

Example lon_range_10_5_raises (ax : Axes) :
  set_map_boundary exact (Int 10, Int 5) (Int 0, Int 10) 0 0 0 0 1 ax =
  (Raise (ValueError lon_order_msg), ax).
Proof. reflexivity. Qed.

Example lat_range_10_5_raises (ax : Axes) :
  set_map_boundary exact (Int 170, Int (-170)) (Int 10, Int 5) 0 0 0 0 1 ax =
  (Raise (ValueError lat_order_msg), ax).
Proof. reflexivity. Qed.

Example lon_200_raises (ax : Axes) :
  set_map_boundary exact (Int 10, Int 200) (Int 0, Int 10) 0 0 0 0 1 ax =
  (Raise (ValueError lon_bounds_msg), ax).
Proof. reflexivity. Qed.

Example lat_95_raises (ax : Axes) :
  set_map_boundary exact (Int 10, Int 20) (Int 0, Int 95) 0 0 0 0 1 ax =
  (Raise (ValueError lat_bounds_msg), ax).
Proof. reflexivity. Qed.

Example zero_step_raises (ax : Axes) :
  set_map_boundary exact (Int 10, Int 20) (Int 0, Int 10) 0 0 0 0 0 ax =
  (Raise (ValueError range_zero_step), ax).
Proof. reflexivity. Qed.

Lemma valid_ranges_Int (a b c d : Z) :
  valid_ranges (Int a, Int b) (Int c, Int d) <->
  (a < b \/ (0 < a /\ b < 0)) /\ c < d /\
  ((-180 <= a /\ a <= 180) /\ (-180 <= b /\ b <= 180)) /\
  ((-90 <= c /\ c <= 90) /\ (-90 <= d /\ d <= 90)).
Proof.
  unfold valid_ranges, lon_order_ok, lat_order_ok, lon_bounds_ok, lat_bounds_ok.
  cbn [fst snd]. now rewrite !num_lt_Int, !num_le_Int.
Qed.

Lemma set_map_boundary_validation_witness :
  (exists msg,
     set_map_boundary exact (Int 10, Int 5) (Int 0, Int 10) 0 0 0 0 1 [] =
     (Raise (ValueError msg), []) /\
     names_violation (Int 10, Int 5) (Int 0, Int 10) msg) /\
  (forall msg ax',
     set_map_boundary exact (Int 10, Int 20) (Int 0, Int 10) 0 0 0 0 1 [] <>
     (Raise (ValueError msg), ax')).
Proof.
  split.
  - apply (set_map_boundary_validation exact (Int 10, Int 5) (Int 0, Int 10) 0 0 0 0 1 []).
    rewrite valid_ranges_Int. lia.
  - apply (set_map_boundary_validation exact (Int 10, Int 20) (Int 0, Int 10) 0 0 0 0 1 []).
    + rewrite valid_ranges_Int. lia.
    + lia.
Defined.

(** C8 as stated fails on the full-circle branch: with
    [lon_range = (-180, 180)] and [lat_range = (60.5, 90)] the ranges pass
    validation, [60.5] is not an integer, and the call returns after
    setting the boundary and the extent. *)
Lemma float_latitude_on_full_circle_returns :
  valid_ranges (Int (-180), Int 180) (Float (121 # 2), Int 90) /\
  (forall z : Z, ~ (121 # 2 == inject_Z z)%Q) /\
  fst (set_map_boundary exact (Int (-180), Int 180) (Float (121 # 2), Int 90)
                        0 0 0 0 1 []) = Ok tt /\
  (forall msg,
     fst (set_map_boundary exact (Int (-180), Int 180) (Float (121 # 2), Int 90)
                           0 0 0 0 1 []) <> Raise (TypeError msg)) /\
  snd (set_map_boundary exact (Int (-180), Int 180) (Float (121 # 2), Int 90)
                        0 0 0 0 1 []) =
  [set_boundary (proj_to_data (Path ((fun lon => (Int lon, Float (121 # 2))) <$> seqZ 0 361)));
   set_extent [Int (-180); Int 180; Float ((121 # 2) - 0)%Q; Int 90] PlateCarree].
Proof.
  split; [|split; [|split; [|split]]].
  - apply validate_Ok. reflexivity.
  - intros z. unfold Qeq; cbn. lia.
  - reflexivity.
  - intros msg. vm_compute. discriminate.
  - reflexivity.
Qed.

Lemma float_in_ranges_raises_TypeError_witness :
  set_map_boundary exact (Float (21 # 2), Float (41 # 2)) (Int 0, Int 10) 0 0 0 0 1 [] =
  (Raise (TypeError float_not_integer), []).
Proof.
  apply (float_in_ranges_raises_TypeError exact (Float (21 # 2), Float (41 # 2))
                                          (Int 0, Int 10) 0 0 0 0 1 []).
  - apply validate_Ok. reflexivity.
  - lia.
  - reflexivity.
  - intros [H _]. vm_compute in H. discriminate.
Defined.

(** ** Boundary and extent of an accepted call *)

Section BoundaryAndExtent.

Variable round64 : Q -> Q.

Lemma fmap_range_items_nonempty {A : Type} (f : Z -> A) (a b s : Z) (rest : list A) :
  0 < s -> a < b -> (f <$> range_items a b s) ++ rest <> [].
Proof.
  intros Hs Hab. destruct (range_items_cons a b s Hs Hab) as [tail ->]. discriminate.
Qed.

Lemma boundary_vertices_generated lon_range lat_range res :
  valid_ranges lon_range lat_range -> 0 < res -> generates lon_range lat_range ->
  exists vertices,
    boundary_vertices round64 lon_range lat_range res = Ok vertices /\ vertices <> [].
Proof.
  intros Hvalid Hres [Hint|Hcircle].
  - destruct lon_range as [[a|a] [b|b]], lat_range as [[c|c] [d|d]];
      cbn in Hint; try discriminate.
    rewrite valid_ranges_Int in Hvalid.
    unfold boundary_vertices, crosses_antimeridian, full_circle. cbn [fst snd].
    rewrite num_geb_Int, num_leb_Int.
    destruct (Z.geb_spec a 0), (Z.leb_spec b 0); cbn [andb];
      try destruct (_ && _);
      unfold antimeridian_vertices, circle_vertices, box_vertices;
      run_ranges Hres; eexists; (split; [reflexivity|]);
      first [ apply fmap_range_items_nonempty; lia
            | rewrite <- (app_nil_r (_ <$> _)); apply fmap_range_items_nonempty; lia ].
  - apply full_circle_taken in Hcircle as [Hcross Hfull].
    unfold boundary_vertices. rewrite Hcross, Hfull.
    unfold circle_vertices. run_ranges Hres. eexists. split; [reflexivity|].
    rewrite <- (app_nil_r (_ <$> _)). apply fmap_range_items_nonempty; lia.
Qed.

(** C5, as the code has it.  A call on valid ranges on which the vertex
    generation goes through, with a positive resolution, returns after
    exactly two calls on the axes: [set_boundary] on the path of the
    generated vertices, then [set_extent] on
    [[lon_min - west_pad, lon_max + east_pad, lat_min - south_pad,
    lat_max + north_pad]] in [PlateCarree].  The vertices are the same for
    all pad values. *)
Theorem set_map_boundary_extent_and_path lon_range lat_range res :
  valid_ranges lon_range lat_range -> 0 < res -> generates lon_range lat_range ->
  exists vertices,
    vertices <> [] /\
    forall north_pad south_pad east_pad west_pad (ax : Axes),
      set_map_boundary round64 lon_range lat_range
                       north_pad south_pad east_pad west_pad res ax =
      (Ok tt,
       ax ++ [set_boundary (proj_to_data (Path vertices));
              set_extent [num_sub round64 lon_range.1 (Int west_pad);
                          num_add round64 lon_range.2 (Int east_pad);
                          num_sub round64 lat_range.1 (Int south_pad);
                          num_add round64 lat_range.2 (Int north_pad)]
                         PlateCarree]).
Proof.
  intros Hvalid Hres Hgen.
  destruct (boundary_vertices_generated _ _ _ Hvalid Hres Hgen) as (vertices & Hv & Hne).
  exists vertices. split; [assumption|]. intros.
  rewrite set_map_boundary_run, Hv.
  apply validate_Ok in Hvalid as ->. reflexivity.
Qed.

End BoundaryAndExtent.

Lemma set_map_boundary_extent_and_path_witness :
  exists vertices,
    vertices <> [] /\
    forall north_pad south_pad east_pad west_pad (ax : Axes),
      set_map_boundary exact (Int (-120), Int (-60)) (Int 20, Int 50)
                       north_pad south_pad east_pad west_pad 1 ax =
      (Ok tt,
       ax ++ [set_boundary (proj_to_data (Path vertices));
              set_extent [Int (-120 - west_pad); Int (-60 + east_pad);
                          Int (20 - south_pad); Int (50 + north_pad)]
                         PlateCarree]).
Proof.
  apply (set_map_boundary_extent_and_path exact (Int (-120), Int (-60)) (Int 20, Int 50) 1).
  - apply validate_Ok. reflexivity.
  - lia.
  - left. reflexivity.
Defined.

(** ** [range] with steps [1] and [-1] *)

Lemma range_items_up (a b : Z) : range_items a (b + 1) 1 = ascending a b.
Proof.
  unfold range_items, range_length, ascending. cbn.
  destruct (Z.ltb_spec a (b + 1)).
  - rewrite Z.div_1_r.
    replace (b + 1 - a - 1 + 1) with (b - a + 1) by lia.
    rewrite (list_fmap_ext _ (Z.add a)) by (intros; lia).
    rewrite fmap_add_seqZ. f_equal. lia.
  - rewrite (seqZ_nil a) by lia. reflexivity.
Qed.

Lemma fmap_seqZ_reverse (n : nat) (a : Z) :
  (fun i => a + Z.of_nat n - 1 - i) <$> seqZ 0 (Z.of_nat n) = reverse (seqZ a (Z.of_nat n)).
Proof.
  revert a. induction n as [|n IH]; intros a; [reflexivity|].
  rewrite (seqZ_S a), reverse_snoc.
  rewrite seqZ_cons by lia. rewrite fmap_cons. f_equal; [lia|].
  replace (Z.pred (Z.of_nat (S n))) with (Z.of_nat n) by lia.
  rewrite <- (fmap_add_seqZ 1 0). rewrite <- list_fmap_compose.
  rewrite <- IH. apply list_fmap_ext. intros; cbn. lia.
Qed.

Lemma range_items_down (b a : Z) : range_items b (a - 1) (-1) = descending b a.
Proof.
  unfold range_items, range_length, descending, ascending. cbn.
  destruct (Z.ltb_spec (a - 1) b).
  - rewrite Z.div_1_r.
    replace (b - (a - 1) - 1 + 1) with (Z.of_nat (Z.to_nat (b - a + 1))) by lia.
    replace (b - a + 1) with (Z.of_nat (Z.to_nat (b - a + 1))) at 2 by lia.
    rewrite <- fmap_seqZ_reverse. apply list_fmap_ext. intros; lia.
  - rewrite (seqZ_nil a) by lia. reflexivity.
Qed.

(** ** Edges *)

Lemma elem_of_ascending (a b x : Z) : x ∈ ascending a b <-> a <= x <= b.
Proof. unfold ascending. rewrite elem_of_seqZ. lia. Qed.

Lemma elem_of_descending (b a x : Z) : x ∈ descending b a <-> a <= x <= b.
Proof. unfold descending. rewrite elem_of_reverse. apply elem_of_ascending. Qed.

Lemma ascending_cons (a b : Z) : a <= b -> ascending a b = a :: ascending (a + 1) b.
Proof.
  intros Hab. unfold ascending. rewrite seqZ_cons by lia.
  f_equal. f_equal; lia.
Qed.

Lemma ascending_snoc (a b : Z) : a <= b -> ascending a b = ascending a (b - 1) ++ [b].
Proof.
  intros Hab. unfold ascending.
  replace (b - a + 1) with (Z.of_nat (S (Z.to_nat (b - a)))) by lia.
  rewrite seqZ_S. f_equal; [f_equal; lia | f_equal; lia].
Qed.

Lemma descending_cons (b a : Z) : a <= b -> descending b a = b :: descending (b - 1) a.
Proof. intros Hab. unfold descending. now rewrite ascending_snoc, reverse_snoc. Qed.

Lemma descending_snoc (b a : Z) : a <= b -> descending b a = descending b (a + 1) ++ [a].
Proof. intros Hab. unfold descending. now rewrite ascending_cons, reverse_cons. Qed.

Lemma seqZ_sorted (n : nat) (a : Z) : StronglySorted Z.le (seqZ a (Z.of_nat n)).
Proof.
  revert a. induction n as [|n IH]; intros a; [constructor|].
  rewrite seqZ_cons by lia.
  replace (Z.pred (Z.of_nat (S n))) with (Z.of_nat n) by lia.
  constructor; [apply IH|]. apply Forall_seqZ. lia.
Qed.

Lemma ascending_sorted (a b : Z) : StronglySorted Z.le (ascending a b).
Proof.
  unfold ascending. destruct (Z.le_gt_cases 0 (b - a + 1)).
  - replace (b - a + 1) with (Z.of_nat (Z.to_nat (b - a + 1))) by lia. apply seqZ_sorted.
  - rewrite seqZ_nil by lia. constructor.
Qed.

Lemma StronglySorted_reverse {A : Type} (R : relation A) (l : list A) :
  StronglySorted R l -> StronglySorted (flip R) (reverse l).
Proof.
  induction 1 as [|x l Hl IH Hx]; [constructor|].
  rewrite reverse_cons. apply StronglySorted_app_2; [|assumption|repeat constructor].
  intros y z Hy Hz. rewrite elem_of_reverse in Hy.
  rewrite list_elem_of_singleton in Hz. subst z.
  rewrite Forall_forall in Hx. unfold flip. now apply Hx.
Qed.

Lemma descending_sorted (b a : Z) : StronglySorted Z.ge (descending b a).
Proof.
  unfold descending. rewrite <- (list_fmap_id (reverse _)).
  eapply StronglySorted_fmap; [|apply StronglySorted_reverse, ascending_sorted].
  unfold flip, id. lia.
Qed.

Lemma list_min_cons (x y : Z) (l : list Z) :
  list_min x (y :: l) = Z.min y (list_min x l).
Proof. reflexivity. Qed.

Lemma list_max_cons (x y : Z) (l : list Z) :
  list_max x (y :: l) = Z.max y (list_max x l).
Proof. reflexivity. Qed.

Lemma list_min_le (x : Z) (l : list Z) :
  list_min x l <= x /\ Forall (fun y => list_min x l <= y) l.
Proof.
  induction l as [|y l [IHx IHl]]; [split; [reflexivity | constructor]|].
  rewrite list_min_cons. split; [lia|]. constructor; [lia|].
  eapply Forall_impl; [exact IHl|]. cbn. lia.
Qed.

Lemma list_min_elem (x : Z) (l : list Z) : list_min x l ∈ x :: l.
Proof.
  induction l as [|y l IH]; [left|]. rewrite list_min_cons.
  destruct (Z.min_spec y (list_min x l)) as [[_ ->]|[_ ->]].
  - right; left.
  - apply elem_of_cons in IH as [->|IH]; [left | right; right; exact IH].
Qed.

Lemma list_max_ge (x : Z) (l : list Z) :
  x <= list_max x l /\ Forall (fun y => y <= list_max x l) l.
Proof.
  induction l as [|y l [IHx IHl]]; [split; [reflexivity | constructor]|].
  rewrite list_max_cons. split; [lia|]. constructor; [lia|].
  eapply Forall_impl; [exact IHl|]. cbn. lia.
Qed.

Lemma list_max_elem (x : Z) (l : list Z) : list_max x l ∈ x :: l.
Proof.
  induction l as [|y l IH]; [left|]. rewrite list_max_cons.
  destruct (Z.max_spec y (list_max x l)) as [[_ ->]|[_ ->]].
  - apply elem_of_cons in IH as [->|IH]; [left | right; right; exact IH].
  - right; left.
Qed.

Lemma list_min_eq (x m : Z) (l : list Z) :
  m ∈ x :: l -> Forall (fun y => m <= y) (x :: l) -> list_min x l = m.
Proof.
  intros Hm Hlow. apply Z.le_antisymm.
  - destruct (list_min_le x l) as [Hx Hl].
    apply elem_of_cons in Hm as [->|Hm]; [exact Hx|].
    rewrite Forall_forall in Hl. now apply Hl.
  - rewrite Forall_forall in Hlow. apply Hlow, list_min_elem.
Qed.

Lemma list_max_eq (x m : Z) (l : list Z) :
  m ∈ x :: l -> Forall (fun y => y <= m) (x :: l) -> list_max x l = m.
Proof.
  intros Hm Hup. apply Z.le_antisymm.
  - rewrite Forall_forall in Hup. apply Hup, list_max_elem.
  - destruct (list_max_ge x l) as [Hx Hl].
    apply elem_of_cons in Hm as [->|Hm]; [exact Hx|].
    rewrite Forall_forall in Hl. now apply Hl.
Qed.

(** The bounding box of a path is the box that contains every vertex and
    whose four sides are each touched by a vertex. *)
Lemma bounding_box_eq (vs : list (Z * Z)) (west east south north : Z) :
  Forall (fun v => (west <= v.1 /\ v.1 <= east) /\ (south <= v.2 /\ v.2 <= north)) vs ->
  west ∈ vs.*1 -> east ∈ vs.*1 -> south ∈ vs.*2 -> north ∈ vs.*2 ->
  bounding_box vs = Some (west, east, south, north).
Proof.
  intros Hin Hw He Hs Hn.
  destruct vs as [|v vs]; [inversion Hw|].
  cbn [bounding_box]. rewrite !fmap_cons in *.
  rewrite (list_min_eq v.1 west), (list_max_eq v.1 east),
          (list_min_eq v.2 south), (list_max_eq v.2 north); try assumption;
    try reflexivity;
    rewrite <- fmap_cons, Forall_fmap;
    (eapply Forall_impl; [exact Hin|]); cbn; intros; lia.
Qed.

Lemma const_sorted {A : Type} (R : relation Z) (x : Z) (l : list A) :
  Reflexive R -> StronglySorted R ((fun _ => x) <$> l).
Proof.
  intros HR. induction l as [|y l IH]; cbn; constructor; [exact IH|].
  apply Forall_fmap, Forall_true. intros z. apply HR.
Qed.

Lemma fst_south_edge (a b c : Z) : (south_edge a b c).*1 = ascending a b.
Proof.
  unfold south_edge. rewrite <- list_fmap_compose.
  rewrite (list_fmap_ext _ id) by reflexivity. apply list_fmap_id.
Qed.

Lemma fst_north_edge (b a d : Z) : (north_edge b a d).*1 = descending b a.
Proof.
  unfold north_edge. rewrite <- list_fmap_compose.
  rewrite (list_fmap_ext _ id) by reflexivity. apply list_fmap_id.
Qed.

Lemma fst_east_edge (b c d : Z) : (east_edge b c d).*1 = (fun _ => b) <$> ascending c d.
Proof. unfold east_edge. now rewrite <- list_fmap_compose. Qed.

Lemma fst_west_edge (a d c : Z) : (west_edge a d c).*1 = (fun _ => a) <$> descending d c.
Proof. unfold west_edge. now rewrite <- list_fmap_compose. Qed.

Lemma elem_of_south_edge (a b c : Z) (v : Z * Z) :
  v ∈ south_edge a b c <-> (a <= v.1 /\ v.1 <= b) /\ v.2 = c.
Proof.
  unfold south_edge. rewrite list_elem_of_fmap. split.
  - intros (x & -> & Hx%elem_of_ascending). cbn. lia.
  - destruct v as [x y]; cbn. intros [Hx ->]. exists x. now rewrite elem_of_ascending.
Qed.

Lemma elem_of_north_edge (b a d : Z) (v : Z * Z) :
  v ∈ north_edge b a d <-> (a <= v.1 /\ v.1 <= b) /\ v.2 = d.
Proof.
  unfold north_edge. rewrite list_elem_of_fmap. split.
  - intros (x & -> & Hx%elem_of_descending). cbn. lia.
  - destruct v as [x y]; cbn. intros [Hx ->]. exists x. now rewrite elem_of_descending.
Qed.

Lemma elem_of_east_edge (b c d : Z) (v : Z * Z) :
  v ∈ east_edge b c d <-> v.1 = b /\ (c <= v.2 /\ v.2 <= d).
Proof.
  unfold east_edge. rewrite list_elem_of_fmap. split.
  - intros (x & -> & Hx%elem_of_ascending). cbn. lia.
  - destruct v as [x y]; cbn. intros [-> Hy]. exists y. now rewrite elem_of_ascending.
Qed.

Lemma elem_of_west_edge (a d c : Z) (v : Z * Z) :
  v ∈ west_edge a d c <-> v.1 = a /\ (c <= v.2 /\ v.2 <= d).
Proof.
  unfold west_edge. rewrite list_elem_of_fmap. split.
  - intros (x & -> & Hx%elem_of_descending). cbn. lia.
  - destruct v as [x y]; cbn. intros [-> Hy]. exists y. now rewrite elem_of_descending.
Qed.

(** ** The ordinary box *)

Lemma box_path_head (a b c d : Z) : a <= b -> head (box_path a b c d) = Some (a, c).
Proof. intros Hab. unfold box_path, south_edge. now rewrite ascending_cons. Qed.

Lemma box_path_last (a b c d : Z) : c <= d -> last (box_path a b c d) = Some (a, c).
Proof.
  intros Hcd. unfold box_path, west_edge.
  rewrite descending_snoc, fmap_app by assumption.
  rewrite !app_assoc. apply last_snoc.
Qed.

Lemma box_path_up (a b c d : Z) :
  StronglySorted Z.le ((south_edge a b c ++ east_edge b c d).*1).
Proof.
  rewrite fmap_app, fst_south_edge, fst_east_edge.
  apply StronglySorted_app_2.
  - intros x y Hx%elem_of_ascending (z & -> & _)%list_elem_of_fmap. lia.
  - apply ascending_sorted.
  - apply const_sorted. intros x. reflexivity.
Qed.

Lemma box_path_down (a b c d : Z) :
  StronglySorted Z.ge ((north_edge b a d ++ west_edge a d c).*1).
Proof.
  rewrite fmap_app, fst_north_edge, fst_west_edge.
  apply StronglySorted_app_2.
  - intros x y Hx%elem_of_descending (z & -> & _)%list_elem_of_fmap. lia.
  - apply descending_sorted.
  - apply const_sorted. intros x. apply Z.le_ge. reflexivity.
Qed.

Lemma elem_of_box_path (a b c d : Z) (v : Z * Z) :
  a <= b -> c <= d ->
  v ∈ box_path a b c d -> (a <= v.1 /\ v.1 <= b) /\ (c <= v.2 /\ v.2 <= d).
Proof.
  intros Hab Hcd. unfold box_path.
  rewrite !elem_of_app, elem_of_south_edge, elem_of_east_edge,
          elem_of_north_edge, elem_of_west_edge.
  lia.
Qed.

Lemma box_path_bounding_box (a b c d : Z) :
  a <= b -> c <= d -> bounding_box (box_path a b c d) = Some (a, b, c, d).
Proof.
  intros Hab Hcd. apply bounding_box_eq.
  - apply Forall_forall. intros v. now apply elem_of_box_path.
  - apply list_elem_of_fmap. exists (a, c). split; [reflexivity|].
    unfold box_path. rewrite !elem_of_app, elem_of_south_edge. cbn. lia.
  - apply list_elem_of_fmap. exists (b, d). split; [reflexivity|].
    unfold box_path. rewrite !elem_of_app, elem_of_east_edge. cbn. lia.
  - apply list_elem_of_fmap. exists (a, c). split; [reflexivity|].
    unfold box_path. rewrite !elem_of_app, elem_of_south_edge. cbn. lia.
  - apply list_elem_of_fmap. exists (b, d). split; [reflexivity|].
    unfold box_path. rewrite !elem_of_app, elem_of_east_edge. cbn. lia.
Qed.

Section BoxBoundary.

Variable round64 : Q -> Q.

Lemma box_vertices_Int (a b c d : Z) :
  box_vertices round64 (Int a, Int b) (Int c, Int d) 1 = Ok (ivertex <$> box_path a b c d).
Proof.
  unfold box_vertices. cbn [fst snd num_add num_sub Z.opp].
  rewrite !range_Int by lia. cbn [rbind].
  rewrite !range_items_up, !range_items_down.
  unfold box_path, south_edge, east_edge, north_edge, west_edge.
  rewrite !fmap_app, <- !list_fmap_compose. reflexivity.
Qed.

Lemma antimeridian_vertices_Int (a b c d : Z) :
  antimeridian_vertices round64 (Int a, Int b) (Int c, Int d) 1 =
  Ok (ivertex <$> antimeridian_path a b c d).
Proof.
  unfold antimeridian_vertices. cbn [fst snd num_add num_sub Z.opp].
  rewrite !range_Int by lia. cbn [rbind].
  rewrite !range_items_up, !range_items_down.
  unfold antimeridian_path, south_edge, east_edge, north_edge, west_edge.
  rewrite !fmap_app, <- !list_fmap_compose. reflexivity.
Qed.

(** C2. Integer ranges with [lon_min < lon_max], not both endpoints on
    [180] or [-180], and [lat_min < lat_max], all within bounds, at
    resolution [1]: the call takes the ordinary-box branch and sets the
    boundary to the path of [box_path].  That path starts and ends at the
    south-west corner, its longitudes do not decrease along the south and
    east edges and do not increase along the north and west edges, and its
    bounding box is [[lon_min, lon_max] x [lat_min, lat_max]]. *)
Theorem box_boundary_closed_monotone_bounded (lon_min lon_max lat_min lat_max : Z)
    (north_pad south_pad east_pad west_pad : Z) (ax : Axes) :
  lon_min < lon_max -> -180 <= lon_min -> lon_max <= 180 ->
  ~ ((lon_min = 180 \/ lon_min = -180) /\ (lon_max = 180 \/ lon_max = -180)) ->
  lat_min < lat_max -> -90 <= lat_min -> lat_max <= 90 ->
  boundary_vertices round64 (Int lon_min, Int lon_max) (Int lat_min, Int lat_max) 1 =
  box_vertices round64 (Int lon_min, Int lon_max) (Int lat_min, Int lat_max) 1 /\
  set_map_boundary round64 (Int lon_min, Int lon_max) (Int lat_min, Int lat_max)
                   north_pad south_pad east_pad west_pad 1 ax =
  (Ok tt,
   ax ++ [set_boundary
            (proj_to_data (Path (ivertex <$> box_path lon_min lon_max lat_min lat_max)));
          set_extent [Int (lon_min - west_pad); Int (lon_max + east_pad);
                      Int (lat_min - south_pad); Int (lat_max + north_pad)]
                     PlateCarree]) /\
  head (box_path lon_min lon_max lat_min lat_max) = Some (lon_min, lat_min) /\
  last (box_path lon_min lon_max lat_min lat_max) = Some (lon_min, lat_min) /\
  StronglySorted Z.le
    ((south_edge lon_min lon_max lat_min ++ east_edge lon_max lat_min lat_max).*1) /\
  StronglySorted Z.ge
    ((north_edge lon_max lon_min lat_max ++ west_edge lon_min lat_max lat_min).*1) /\
  bounding_box (box_path lon_min lon_max lat_min lat_max) =
  Some (lon_min, lon_max, lat_min, lat_max).
Proof.
  intros Hlon Hlo Hhi Hnot_circle Hlat Hlatlo Hlathi.
  assert (Hbranch :
    boundary_vertices round64 (Int lon_min, Int lon_max) (Int lat_min, Int lat_max) 1 =
    box_vertices round64 (Int lon_min, Int lon_max) (Int lat_min, Int lat_max) 1).
  { unfold boundary_vertices, crosses_antimeridian, full_circle. cbn [fst snd].
    rewrite num_geb_Int, num_leb_Int, !num_eqb_Int.
    destruct (Z.geb_spec lon_min 0), (Z.leb_spec lon_max 0); cbn [andb]; try lia;
      destruct (Z.eqb_spec lon_min 180), (Z.eqb_spec lon_min (-180)),
               (Z.eqb_spec lon_max 180), (Z.eqb_spec lon_max (-180));
      cbn [andb orb]; try reflexivity; lia. }
  split; [exact Hbranch|]. split.
  - rewrite set_map_boundary_run, Hbranch, box_vertices_Int.
    assert (Hvalid : validate (Int lon_min, Int lon_max) (Int lat_min, Int lat_max) = Ok tt)
      by (apply validate_Ok, valid_ranges_Int; lia).
    rewrite Hvalid. reflexivity.
  - repeat split.
    + apply box_path_head; lia.
    + apply box_path_last; lia.
    + apply box_path_up.
    + apply box_path_down.
    + apply box_path_bounding_box; lia.
Qed.

End BoxBoundary.

Lemma box_boundary_closed_monotone_bounded_witness :
  head (box_path (-120) (-60) 20 50) = Some (-120, 20) /\
  last (box_path (-120) (-60) 20 50) = Some (-120, 20) /\
  bounding_box (box_path (-120) (-60) 20 50) = Some (-120, -60, 20, 50).
Proof.
  destruct (box_boundary_closed_monotone_bounded exact (-120) (-60) 20 50 0 0 0 0 [])
    as (_ & _ & Hhead & Hlast & _ & _ & Hbox); try lia.
  repeat split; assumption.
Defined.

(** ** Across the antimeridian *)

Lemma south_edge_last (a b c : Z) : a <= b -> last (south_edge a b c) = Some (b, c).
Proof.
  intros Hab. unfold south_edge. rewrite ascending_snoc, fmap_app by assumption.
  apply last_snoc.
Qed.

Lemma south_edge_head (a b c : Z) : a <= b -> head (south_edge a b c) = Some (a, c).
Proof. intros Hab. unfold south_edge. now rewrite ascending_cons. Qed.

Lemma north_edge_last (b a d : Z) : a <= b -> last (north_edge b a d) = Some (a, d).
Proof.
  intros Hab. unfold north_edge. rewrite descending_snoc, fmap_app by assumption.
  apply last_snoc.
Qed.

Lemma north_edge_head (b a d : Z) : a <= b -> head (north_edge b a d) = Some (b, d).
Proof. intros Hab. unfold north_edge. now rewrite descending_cons. Qed.

Lemma antimeridian_path_south_transition (a b c d : Z) :
  a <= 180 -> -180 <= b ->
  adjacent (180, c) (-180, c) (antimeridian_path a b c d).
Proof.
  intros Ha Hb.
  exists ((fun lon => (lon, c)) <$> ascending a (180 - 1)),
         (((fun lon => (lon, c)) <$> ascending (-180 + 1) b) ++
          east_edge b c d ++ north_edge b (-180) d ++ north_edge 180 a d ++
          west_edge a d c).
  unfold antimeridian_path. unfold south_edge at 1 2.
  rewrite (ascending_snoc a 180), (ascending_cons (-180) b) by assumption.
  rewrite fmap_app, fmap_cons, <- !app_assoc. reflexivity.
Qed.

Lemma antimeridian_path_north_transition (a b c d : Z) :
  a <= 180 -> -180 <= b ->
  adjacent (-180, d) (180, d) (antimeridian_path a b c d).
Proof.
  intros Ha Hb.
  exists (south_edge a 180 c ++ south_edge (-180) b c ++ east_edge b c d ++
          ((fun lon => (lon, d)) <$> descending b (-180 + 1))),
         (((fun lon => (lon, d)) <$> descending (180 - 1) a) ++ west_edge a d c).
  unfold antimeridian_path. unfold north_edge at 1 2.
  rewrite (descending_snoc b (-180)), (descending_cons 180 a) by assumption.
  rewrite fmap_app, fmap_cons, <- !app_assoc. reflexivity.
Qed.

Lemma antimeridian_path_longitudes (a b c d : Z) :
  0 < a -> a <= 180 -> -180 <= b -> b < 0 ->
  Forall (fun v => -180 <= v.1 /\ v.1 <= 180) (antimeridian_path a b c d).
Proof.
  intros Ha Ha' Hb Hb'. apply Forall_forall. intros v. unfold antimeridian_path.
  rewrite !elem_of_app, !elem_of_south_edge, elem_of_east_edge,
          !elem_of_north_edge, elem_of_west_edge.
  lia.
Qed.

Section AntimeridianBoundary.

Variable round64 : Q -> Q.

(** Integer ranges across the antimeridian
    ([0 < lon_min <= 180], [-180 <= lon_max < 0]) at resolution [1]: the
    call sets the boundary to the six edges of [antimeridian_path],
    starting at the south-west corner.  Every longitude of the path lies
    in [[-180, 180]]; on the south edge the vertex at [180] is immediately
    followed by the vertex at [-180], and on the north edge the vertex at
    [-180] by the vertex at [180]. *)
Theorem antimeridian_boundary_bounded_with_transition
    (lon_min lon_max lat_min lat_max : Z)
    (north_pad south_pad east_pad west_pad : Z) (ax : Axes) :
  0 < lon_min -> lon_min <= 180 -> -180 <= lon_max -> lon_max < 0 ->
  lat_min < lat_max -> -90 <= lat_min -> lat_max <= 90 ->
  set_map_boundary round64 (Int lon_min, Int lon_max) (Int lat_min, Int lat_max)
                   north_pad south_pad east_pad west_pad 1 ax =
  (Ok tt,
   ax ++ [set_boundary
            (proj_to_data
               (Path (ivertex <$> antimeridian_path lon_min lon_max lat_min lat_max)));
          set_extent [Int (lon_min - west_pad); Int (lon_max + east_pad);
                      Int (lat_min - south_pad); Int (lat_max + north_pad)]
                     PlateCarree]) /\
  Forall (fun v => -180 <= v.1 /\ v.1 <= 180)
         (antimeridian_path lon_min lon_max lat_min lat_max) /\
  head (antimeridian_path lon_min lon_max lat_min lat_max) = Some (lon_min, lat_min) /\
  (last (south_edge lon_min 180 lat_min) = Some (180, lat_min) /\
   head (south_edge (-180) lon_max lat_min) = Some (-180, lat_min) /\
   adjacent (180, lat_min) (-180, lat_min)
            (antimeridian_path lon_min lon_max lat_min lat_max)) /\
  (last (north_edge lon_max (-180) lat_max) = Some (-180, lat_max) /\
   head (north_edge 180 lon_min lat_max) = Some (180, lat_max) /\
   adjacent (-180, lat_max) (180, lat_max)
            (antimeridian_path lon_min lon_max lat_min lat_max)).
Proof.
  intros Hpos Hhi Hlo Hneg Hlat Hlatlo Hlathi. split.
  - rewrite set_map_boundary_run.
    assert (Hvalid : validate (Int lon_min, Int lon_max) (Int lat_min, Int lat_max) = Ok tt)
      by (apply validate_Ok, valid_ranges_Int; lia).
    rewrite Hvalid. unfold boundary_vertices, crosses_antimeridian. cbn [fst snd].
    rewrite num_geb_Int, num_leb_Int.
    destruct (Z.geb_spec lon_min 0), (Z.leb_spec lon_max 0); try lia. cbn [andb].
    rewrite antimeridian_vertices_Int. reflexivity.
  - split; [apply antimeridian_path_longitudes; lia|].
    split; [unfold antimeridian_path; rewrite head_app, south_edge_head by lia;
            reflexivity|].
    split; (split; [|split]).
    + apply south_edge_last; lia.
    + apply south_edge_head; lia.
    + apply antimeridian_path_south_transition; lia.
    + apply north_edge_last; lia.
    + apply north_edge_head; lia.
    + apply antimeridian_path_north_transition; lia.
Qed.

(** On [(-180, 180)] the full-circle branch is taken: a ring at
    [lat_min]. *)
Lemma full_circle_ring (lat_range : num * num) (res : Z) :
  res <> 0 ->
  boundary_vertices round64 (Int (-180), Int 180) lat_range res =
  Ok ((fun lon => (Int lon, lat_range.1)) <$> range_items 0 361 res).
Proof.
  intros Hres. unfold boundary_vertices, circle_vertices.
  cbn [crosses_antimeridian full_circle]. rewrite range_Int by assumption. reflexivity.
Qed.

End AntimeridianBoundary.

Lemma antimeridian_boundary_bounded_with_transition_witness :
  Forall (fun v => -180 <= v.1 /\ v.1 <= 180) (antimeridian_path 170 (-170) (-10) 10) /\
  adjacent (180, -10) (-180, -10) (antimeridian_path 170 (-170) (-10) 10) /\
  adjacent (-180, 10) (180, 10) (antimeridian_path 170 (-170) (-10) 10).
Proof.
  destruct (antimeridian_boundary_bounded_with_transition exact 170 (-170) (-10) 10 0 0 0 0 [])
    as (_ & Hbounds & _ & (_ & _ & Hsouth) & (_ & _ & Hnorth)); try lia.
  repeat split; assumption.
Defined.

(** C1 on [lon_range = (180, -180)]: the range satisfies the test of the
    antimeridian branch, which comes first, so the boundary is not the
    ring of the full-circle branch but a box of no width along the
    antimeridian: every vertex sits at longitude [180] or [-180]. *)
Theorem lon_180_minus180_is_not_a_ring :
  validate (Int 180, Int (-180)) (Int 60, Int 90) = Ok tt /\
  full_circle (Int 180, Int (-180)) = true /\
  boundary_vertices exact (Int 180, Int (-180)) (Int 60, Int 90) 1 =
  Ok (ivertex <$> ([(180, 60); (-180, 60)] ++ east_edge (-180) 60 90 ++
                   [(-180, 90); (180, 90)] ++ west_edge 180 90 60)) /\
  boundary_vertices exact (Int 180, Int (-180)) (Int 60, Int 90) 1 <>
  circle_vertices (Int 60, Int 90) 1 /\
  circle_vertices (Int 60, Int 90) 1 = Ok (ivertex <$> south_edge 0 360 60) /\
  boundary_vertices exact (Int (-180), Int 180) (Int 60, Int 90) 1 =
  circle_vertices (Int 60, Int 90) 1.
Proof.
  repeat split; try reflexivity.
  vm_compute. discriminate.
Qed.

(** ** Longitudes across the antimeridian at any resolution *)

Lemma elem_of_range_items_up (a b s x : Z) :
  0 < s -> x ∈ range_items a b s -> a <= x < b.
Proof.
  intros Hs. unfold range_items, range_length.
  destruct (Z.ltb_spec 0 s); [|lia].
  rewrite list_elem_of_fmap. intros (i & -> & Hi). rewrite elem_of_seqZ in Hi.
  destruct (Z.ltb_spec a b); [|lia].
  pose proof (Z.mul_div_le (b - a - 1) s Hs). nia.
Qed.

Lemma elem_of_range_items_down (a b s x : Z) :
  s < 0 -> x ∈ range_items a b s -> b < x <= a.
Proof.
  intros Hs. unfold range_items, range_length.
  destruct (Z.ltb_spec 0 s); [lia|]. destruct (Z.ltb_spec s 0); [|lia].
  rewrite list_elem_of_fmap. intros (i & -> & Hi). rewrite elem_of_seqZ in Hi.
  destruct (Z.ltb_spec b a); [|lia].
  assert (Hpos : 0 < - s) by lia.
  pose proof (Z.mul_div_le (a - b - 1) (- s) Hpos). nia.
Qed.

Section AntimeridianAnyResolution.

Variable round64 : Q -> Q.

(** Whatever the positive resolution, no vertex of a region across the
    antimeridian has a longitude outside [[-180, 180]]; at a resolution
    above [1] the vertices at [180] and [-180] themselves may be stepped
    over. *)
Lemma antimeridian_longitudes_bounded (lon_min lon_max lat_min lat_max res : Z) :
  0 < lon_min -> lon_min <= 180 -> -180 <= lon_max -> lon_max < 0 -> 0 < res ->
  exists vertices,
    boundary_vertices round64 (Int lon_min, Int lon_max) (Int lat_min, Int lat_max) res =
    Ok vertices /\
    Forall (fun v : vertex => num_le (Int (-180)) v.1 /\ num_le v.1 (Int 180)) vertices.
Proof.
  intros Hpos Hhi Hlo Hneg Hres.
  unfold boundary_vertices, crosses_antimeridian. cbn [fst snd].
  rewrite num_geb_Int, num_leb_Int.
  destruct (Z.geb_spec lon_min 0), (Z.leb_spec lon_max 0); try lia. cbn [andb].
  unfold antimeridian_vertices. run_ranges Hres.
  eexists. split; [reflexivity|].
  rewrite !Forall_app, !Forall_fmap. unfold compose. cbn [fst].
  repeat split; apply Forall_forall; intros x Hx; rewrite !num_le_Int;
    try lia;
    first [ apply elem_of_range_items_up in Hx; lia
          | apply elem_of_range_items_down in Hx; lia ].
Qed.

End AntimeridianAnyResolution.

Example antimeridian_coarse :
  boundary_vertices exact (Int 170, Int (-170)) (Int 0, Int 3) 3 =
  Ok (ivertex <$> [(170, 0); (173, 0); (176, 0); (179, 0);
                   (-180, 0); (-177, 0); (-174, 0); (-171, 0);
                   (-170, 0); (-170, 3);
                   (-170, 3); (-173, 3); (-176, 3); (-179, 3);
                   (180, 3); (177, 3); (174, 3); (171, 3);
                   (170, 3); (170, 0)]).
Proof. reflexivity. Qed.

(** * Further properties of [set_map_boundary] *)

Section BoundaryChecks.

Variable round64 : Q -> Q.

(** The four checks run in the order of the source, and the first one
    that fails decides the message: ranges that break several rules are
    reported for the earliest one only. *)
Theorem validation_reports_first_violated_rule lon_range lat_range
    north_pad south_pad east_pad west_pad res (ax : Axes) :
  (~ lon_order_ok lon_range ->
   set_map_boundary round64 lon_range lat_range
                    north_pad south_pad east_pad west_pad res ax =
   (Raise (ValueError lon_order_msg), ax)) /\
  (lon_order_ok lon_range -> ~ lat_order_ok lat_range ->
   set_map_boundary round64 lon_range lat_range
                    north_pad south_pad east_pad west_pad res ax =
   (Raise (ValueError lat_order_msg), ax)) /\
  (lon_order_ok lon_range -> lat_order_ok lat_range -> ~ lon_bounds_ok lon_range ->
   set_map_boundary round64 lon_range lat_range
                    north_pad south_pad east_pad west_pad res ax =
   (Raise (ValueError lon_bounds_msg), ax)) /\
  (lon_order_ok lon_range -> lat_order_ok lat_range -> lon_bounds_ok lon_range ->
   ~ lat_bounds_ok lat_range ->
   set_map_boundary round64 lon_range lat_range
                    north_pad south_pad east_pad west_pad res ax =
   (Raise (ValueError lat_bounds_msg), ax)).
Proof.
  rewrite set_map_boundary_run. unfold validate, raise_if, rbind.
  rewrite <- lon_order_check, <- lat_order_check, <- lon_bounds_check, <- lat_bounds_check.
  repeat match goal with
         | |- context [if ?c then _ else _] => destruct c
         end;
    repeat split; intros; congruence.
Qed.

(** Every exception of [set_map_boundary] is raised before the first call
    on the axes: a call that raises leaves the axes untouched, and a call
    that returns has made exactly two calls, [set_boundary] then
    [set_extent]. *)
Theorem set_map_boundary_raises_before_any_call lon_range lat_range
    north_pad south_pad east_pad west_pad res (ax ax' : Axes) (r : result unit) :
  set_map_boundary round64 lon_range lat_range
                   north_pad south_pad east_pad west_pad res ax = (r, ax') ->
  match r with
  | Raise _ => ax' = ax
  | Ok _ => exists b extents, ax' = ax ++ [set_boundary b; set_extent extents PlateCarree]
  end.
Proof.
  rewrite set_map_boundary_run.
  destruct (validate lon_range lat_range); [|now intros [= <- <-]].
  destruct (boundary_vertices round64 lon_range lat_range res);
    intros [= <- <-]; eauto.
Qed.

(** For ranges that pass validation the branch is decided by the order
    of the longitudes alone: [lon_min > lon_max] is the antimeridian
    branch (also for [(180, -180)]), [(-180, 180)] is the full circle, and
    every other range is the ordinary box. *)
Theorem valid_ranges_branch lon_range lat_range res :
  valid_ranges lon_range lat_range ->
  (num_lt lon_range.2 lon_range.1 ->
   boundary_vertices round64 lon_range lat_range res =
   antimeridian_vertices round64 lon_range lat_range res) /\
  ((to_Q lon_range.1 == -180 /\ to_Q lon_range.2 == 180)%Q ->
   boundary_vertices round64 lon_range lat_range res = circle_vertices lat_range res) /\
  (num_lt lon_range.1 lon_range.2 ->
   ~ (to_Q lon_range.1 == -180 /\ to_Q lon_range.2 == 180)%Q ->
   boundary_vertices round64 lon_range lat_range res =
   box_vertices round64 lon_range lat_range res).
Proof.
  intros (Horder & _). unfold boundary_vertices.
  destruct (crosses_antimeridian lon_range) eqn:Hcross.
  - assert (Hlt : num_lt lon_range.2 lon_range.1).
    { revert Horder Hcross. unfold lon_order_ok, crosses_antimeridian.
      destruct lon_range as [a b]; cbn [fst snd].
      num_cases; intros [Hlt|[Hpos Hneg]] Hcross; try discriminate; lra. }
    split; [reflexivity|].
    split; [intros [H1 H2] | intros H1 _]; exfalso; unfold num_lt in *; lra.
  - assert (Hlt : num_lt lon_range.1 lon_range.2).
    { revert Horder Hcross. unfold lon_order_ok, crosses_antimeridian.
      destruct lon_range as [a b]; cbn [fst snd].
      num_cases; intros [Hlt|[Hpos Hneg]] Hcross; try discriminate; lra. }
    split; [intros H1; exfalso; unfold num_lt in *; lra|].
    destruct (full_circle lon_range) eqn:Hfull.
    + pose proof (full_circle_branch _ Horder Hcross Hfull) as Hcircle.
      split; [reflexivity|]. intros _ Hnot. contradiction.
    + split; [|reflexivity].
      intros Hcircle. apply full_circle_taken in Hcircle as [_ Hfull']. congruence.
Qed.

End BoundaryChecks.

Lemma validation_reports_first_violated_rule_witness :
  set_map_boundary exact (Int 200, Int 100) (Int 95, Int 10) 0 0 0 0 1 [] =
  (Raise (ValueError lon_order_msg), []) /\
  set_map_boundary exact (Int 100, Int 200) (Int 95, Int 10) 0 0 0 0 1 [] =
  (Raise (ValueError lat_order_msg), []) /\
  set_map_boundary exact (Int 100, Int 200) (Int 10, Int 95) 0 0 0 0 1 [] =
  (Raise (ValueError lon_bounds_msg), []) /\
  set_map_boundary exact (Int 100, Int 120) (Int 10, Int 95) 0 0 0 0 1 [] =
  (Raise (ValueError lat_bounds_msg), []).
Proof.
  split; [|split; [|split]].
  - apply (validation_reports_first_violated_rule exact (Int 200, Int 100) (Int 95, Int 10)).
    rewrite <- lon_order_check. discriminate.
  - apply (validation_reports_first_violated_rule exact (Int 100, Int 200) (Int 95, Int 10)).
    + rewrite <- lon_order_check. reflexivity.
    + rewrite <- lat_order_check. discriminate.
  - apply (validation_reports_first_violated_rule exact (Int 100, Int 200) (Int 10, Int 95)).
    + rewrite <- lon_order_check. reflexivity.
    + rewrite <- lat_order_check. reflexivity.
    + rewrite <- lon_bounds_check. discriminate.
  - apply (validation_reports_first_violated_rule exact (Int 100, Int 120) (Int 10, Int 95)).
    + rewrite <- lon_order_check. reflexivity.
    + rewrite <- lat_order_check. reflexivity.
    + rewrite <- lon_bounds_check. reflexivity.
    + rewrite <- lat_bounds_check. discriminate.
Defined.

Lemma set_map_boundary_raises_before_any_call_witness :
  [set_xlabel "lon" 16] = [set_xlabel "lon" 16] /\
  exists b extents,
    [set_xlabel "lon" 16; set_boundary (proj_to_data (Path
       (ivertex <$> [(0, 0); (1, 0); (1, 0); (1, 1); (1, 1); (0, 1); (0, 1); (0, 0)])));
     set_extent [Int 0; Int 1; Int 0; Int 1] PlateCarree] =
    [set_xlabel "lon" 16] ++ [set_boundary b; set_extent extents PlateCarree].
Proof.
  split.
  - apply (set_map_boundary_raises_before_any_call exact (Float (21 # 2), Int 20)
             (Int 0, Int 10) 0 0 0 0 1 _ _ (Raise (TypeError float_not_integer))).
    reflexivity.
  - apply (set_map_boundary_raises_before_any_call exact (Int 0, Int 1)
             (Int 0, Int 1) 0 0 0 0 1 [set_xlabel "lon" 16] _ (Ok tt)).
    reflexivity.
Defined.

Lemma valid_ranges_branch_witness :
  boundary_vertices exact (Int 180, Int (-180)) (Int 60, Int 90) 1 =
  antimeridian_vertices exact (Int 180, Int (-180)) (Int 60, Int 90) 1 /\
  boundary_vertices exact (Float (-180), Float 180) (Float (121 # 2), Int 90) 1 =
  circle_vertices (Float (121 # 2), Int 90) 1 /\
  boundary_vertices exact (Int (-180), Int 179) (Int 60, Int 90) 1 =
  box_vertices exact (Int (-180), Int 179) (Int 60, Int 90) 1.
Proof.
  split; [|split].
  - apply (valid_ranges_branch exact (Int 180, Int (-180)) (Int 60, Int 90) 1).
    + apply validate_Ok. reflexivity.
    + reflexivity.
  - apply (valid_ranges_branch exact (Float (-180), Float 180) (Float (121 # 2), Int 90) 1).
    + apply validate_Ok. reflexivity.
    + split; reflexivity.
  - apply (valid_ranges_branch exact (Int (-180), Int 179) (Int 60, Int 90) 1).
    + apply validate_Ok. reflexivity.
    + reflexivity.
    + intros [_ H]. vm_compute in H. discriminate.
Defined.

(** ** Edge cases of the ranges and of the resolution *)

Lemma range_items_nil (a b s : Z) :
  (0 < s /\ b <= a) \/ (s < 0 /\ a <= b) -> range_items a b s = [].
Proof.
  intros H. unfold range_items, range_length.
  destruct (Z.ltb_spec 0 s), (Z.ltb_spec s 0), (Z.ltb_spec a b), (Z.ltb_spec b a);
    try lia; reflexivity.
Qed.

Section BoundaryEdgeCases.

Variable round64 : Q -> Q.

(** A range cannot start or end on the prime meridian and wrap around:
    the antimeridian exception of the validation needs [lon_min > 0] and
    [lon_max < 0] strictly, although the branch test accepts [0].  So
    [lon_min >= lon_max] with either endpoint equal to [0] is rejected. *)
Theorem wrap_from_prime_meridian_rejected lon_range lat_range
    north_pad south_pad east_pad west_pad res (ax : Axes) :
  num_le lon_range.2 lon_range.1 ->
  (to_Q lon_range.1 == 0 \/ to_Q lon_range.2 == 0)%Q ->
  set_map_boundary round64 lon_range lat_range
                   north_pad south_pad east_pad west_pad res ax =
  (Raise (ValueError lon_order_msg), ax).
Proof.
  intros Hle Hzero.
  apply validation_reports_first_violated_rule.
  unfold lon_order_ok, num_lt, num_le in *. cbn [to_Q] in *. unfold inject_Z.
  intros [Hlt|[Hpos Hneg]]; destruct Hzero; lra.
Qed.

(** With [res = 0] valid ranges are accepted by the validation and then
    refused by [range]: a [ValueError] about the step, with the axes
    untouched. *)
Theorem zero_resolution_raises lon_range lat_range
    north_pad south_pad east_pad west_pad (ax : Axes) :
  valid_ranges lon_range lat_range -> generates lon_range lat_range ->
  set_map_boundary round64 lon_range lat_range
                   north_pad south_pad east_pad west_pad 0 ax =
  (Raise (ValueError range_zero_step), ax).
Proof.
  intros Hvalid Hgen. rewrite set_map_boundary_run.
  apply validate_Ok in Hvalid as ->.
  destruct Hgen as [Hint|Hcircle].
  - destruct lon_range as [[a|a] [b|b]], lat_range as [[c|c] [d|d]];
      cbn in Hint; try discriminate.
    unfold boundary_vertices.
    destruct (crosses_antimeridian _); [reflexivity|].
    destruct (full_circle _); reflexivity.
  - apply full_circle_taken in Hcircle as [Hcross Hfull].
    unfold boundary_vertices. rewrite Hcross, Hfull. reflexivity.
Qed.

(** With a negative [res] every [range] of every branch is empty: the
    vertex list has no vertex at all. *)
Theorem negative_resolution_no_vertex lon_range lat_range res :
  valid_ranges lon_range lat_range -> generates lon_range lat_range -> res < 0 ->
  boundary_vertices round64 lon_range lat_range res = Ok [].
Proof.
  intros Hvalid [Hint|Hcircle] Hres.
  - destruct lon_range as [[a|a] [b|b]], lat_range as [[c|c] [d|d]];
      cbn in Hint; try discriminate.
    rewrite valid_ranges_Int in Hvalid.
    unfold boundary_vertices, crosses_antimeridian, full_circle. cbn [fst snd].
    rewrite num_geb_Int, num_leb_Int.
    destruct (Z.geb_spec a 0), (Z.leb_spec b 0); cbn [andb];
      try destruct (_ && _);
      unfold antimeridian_vertices, circle_vertices, box_vertices;
      run_ranges Hres; rewrite !range_items_nil by lia; reflexivity.
  - apply full_circle_taken in Hcircle as [Hcross Hfull].
    unfold boundary_vertices. rewrite Hcross, Hfull.
    unfold circle_vertices. run_ranges Hres. rewrite range_items_nil by lia. reflexivity.
Qed.

End BoundaryEdgeCases.

Lemma wrap_from_prime_meridian_rejected_witness :
  set_map_boundary exact (Int 0, Int (-10)) (Int 0, Int 10) 0 0 0 0 1 [] =
  (Raise (ValueError lon_order_msg), []).
Proof.
  apply (wrap_from_prime_meridian_rejected exact (Int 0, Int (-10)) (Int 0, Int 10)).
  - unfold num_le. cbn. unfold Qle. cbn. lia.
  - left. reflexivity.
Defined.

Lemma zero_resolution_raises_witness :
  set_map_boundary exact (Int 170, Int (-170)) (Int (-10), Int 10) 0 0 0 0 0 [] =
  (Raise (ValueError range_zero_step), []).
Proof.
  apply (zero_resolution_raises exact (Int 170, Int (-170)) (Int (-10), Int 10)).
  - apply validate_Ok. reflexivity.
  - left. reflexivity.
Defined.

Lemma negative_resolution_no_vertex_witness :
  boundary_vertices exact (Int (-120), Int (-60)) (Int 20, Int 50) (-1) = Ok [].
Proof.
  apply (negative_resolution_no_vertex exact (Int (-120), Int (-60)) (Int 20, Int 50) (-1)).
  - apply validate_Ok. reflexivity.
  - left. reflexivity.
  - lia.
Defined.

Lemma antimeridian_longitudes_bounded_witness :
  exists vertices,
    boundary_vertices exact (Int 170, Int (-170)) (Int (-10), Int 10) 3 = Ok vertices /\
    Forall (fun v : vertex => num_le (Int (-180)) v.1 /\ num_le v.1 (Int 180)) vertices.
Proof.
  apply (antimeridian_longitudes_bounded exact 170 (-170) (-10) 10 3); lia.
Defined.

(** ** The ordinary box and the ring at any resolution *)

Lemma seqZ_snoc (m q : Z) : 0 <= q -> seqZ m (q + 1) = seqZ m q ++ [m + q].
Proof. intros Hq. rewrite seqZ_app by lia. reflexivity. Qed.

Lemma range_items_cons_down (a b s : Z) :
  s < 0 -> b < a -> exists tail, range_items a b s = a :: tail.
Proof.
  intros Hs Hab. unfold range_items, range_length.
  destruct (Z.ltb_spec 0 s); [lia|]. destruct (Z.ltb_spec s 0); [|lia].
  destruct (Z.ltb_spec b a); [|lia].
  assert (0 <= (a - b - 1) / - s) by (apply Z.div_pos; lia).
  rewrite seqZ_cons by lia. cbn. rewrite Z.add_0_r. eauto.
Qed.

Lemma range_items_last_up (a b s : Z) :
  0 < s -> a < b -> last (range_items a b s) = Some (a + (b - a - 1) / s * s).
Proof.
  intros Hs Hab. unfold range_items, range_length.
  destruct (Z.ltb_spec 0 s); [|lia]. destruct (Z.ltb_spec a b); [|lia].
  rewrite seqZ_snoc by (apply Z.div_pos; lia).
  rewrite fmap_app. apply last_snoc.
Qed.

Lemma range_items_last_down (a b s : Z) :
  s < 0 -> b < a -> last (range_items a b s) = Some (a + (a - b - 1) / - s * s).
Proof.
  intros Hs Hab. unfold range_items, range_length.
  destruct (Z.ltb_spec 0 s); [lia|]. destruct (Z.ltb_spec s 0); [|lia].
  destruct (Z.ltb_spec b a); [|lia].
  rewrite seqZ_snoc by (apply Z.div_pos; lia).
  rewrite fmap_app. apply last_snoc.
Qed.

Lemma elem_of_stepped_box_path (a b c d res : Z) (v : Z * Z) :
  a <= b -> c <= d -> 0 < res ->
  v ∈ stepped_box_path a b c d res -> (a <= v.1 /\ v.1 <= b) /\ (c <= v.2 /\ v.2 <= d).
Proof.
  intros Hab Hcd Hres. unfold stepped_box_path.
  rewrite !elem_of_app, !list_elem_of_fmap.
  intros [(x & -> & Hx)|[(x & -> & Hx)|[(x & -> & Hx)|(x & -> & Hx)]]]; cbn;
    first [ apply elem_of_range_items_up in Hx; lia
          | apply elem_of_range_items_down in Hx; lia ].
Qed.

Section SteppedBoundary.

Variable round64 : Q -> Q.

(** The ordinary box at any positive resolution: the path starts at the
    south-west corner and its bounding box is exactly the two ranges, but
    it ends at latitude [lat_min + (lat_max - lat_min) mod res] on the
    west side.  It returns to its first vertex exactly when [res] divides
    [lat_max - lat_min]. *)
Theorem box_at_any_resolution (lon_min lon_max lat_min lat_max res : Z) :
  lon_min < lon_max ->
  ~ ((lon_min = 180 \/ lon_min = -180) /\ (lon_max = 180 \/ lon_max = -180)) ->
  lat_min < lat_max -> 0 < res ->
  boundary_vertices round64 (Int lon_min, Int lon_max) (Int lat_min, Int lat_max) res =
  Ok (ivertex <$> stepped_box_path lon_min lon_max lat_min lat_max res) /\
  head (stepped_box_path lon_min lon_max lat_min lat_max res) = Some (lon_min, lat_min) /\
  last (stepped_box_path lon_min lon_max lat_min lat_max res) =
  Some (lon_min, lat_min + (lat_max - lat_min) mod res) /\
  (last (stepped_box_path lon_min lon_max lat_min lat_max res) =
   head (stepped_box_path lon_min lon_max lat_min lat_max res) <->
   (lat_max - lat_min) mod res = 0) /\
  bounding_box (stepped_box_path lon_min lon_max lat_min lat_max res) =
  Some (lon_min, lon_max, lat_min, lat_max).
Proof.
  intros Hlon Hnot_circle Hlat Hres.
  assert (Hhead : head (stepped_box_path lon_min lon_max lat_min lat_max res) =
                  Some (lon_min, lat_min)).
  { unfold stepped_box_path.
    destruct (range_items_cons lon_min (lon_max + 1) res) as [tail ->]; [lia..|].
    reflexivity. }
  assert (Hlast : last (stepped_box_path lon_min lon_max lat_min lat_max res) =
                  Some (lon_min, lat_min + (lat_max - lat_min) mod res)).
  { unfold stepped_box_path. rewrite !app_assoc, last_app, fmap_last.
    rewrite range_items_last_down by lia. cbn.
    do 2 f_equal.
    replace (lat_max - (lat_min - 1) - 1) with (lat_max - lat_min) by lia.
    rewrite Z.opp_involutive, Z.mod_eq by lia. lia. }
  split; [|split; [exact Hhead|split; [exact Hlast|split]]].
  - unfold boundary_vertices, crosses_antimeridian, full_circle. cbn [fst snd].
    rewrite num_geb_Int, num_leb_Int, !num_eqb_Int.
    replace (_ && _) with false
      by (destruct (Z.geb_spec lon_min 0), (Z.leb_spec lon_max 0); cbn; lia).
    replace (_ && _) with false
      by (destruct (Z.eqb_spec lon_min 180), (Z.eqb_spec lon_min (-180)),
                   (Z.eqb_spec lon_max 180), (Z.eqb_spec lon_max (-180)); cbn; lia).
    unfold box_vertices. run_ranges Hres.
    unfold stepped_box_path. rewrite !fmap_app, <- !list_fmap_compose. reflexivity.
  - rewrite Hhead, Hlast. split; [intros [= H]; lia | intros ->; do 2 f_equal; lia].
  - apply bounding_box_eq.
    + apply Forall_forall. intros v. apply elem_of_stepped_box_path; lia.
    + apply list_elem_of_fmap. exists (lon_min, lat_min). split; [reflexivity|].
      apply head_Some_elem_of, Hhead.
    + apply list_elem_of_fmap. exists (lon_max, lat_max). split; [reflexivity|].
      unfold stepped_box_path. rewrite !elem_of_app. right; right; left.
      destruct (range_items_cons_down lon_max (lon_min - 1) (- res)) as [tail ->]; [lia..|].
      left.
    + apply list_elem_of_fmap. exists (lon_min, lat_min). split; [reflexivity|].
      apply head_Some_elem_of, Hhead.
    + apply list_elem_of_fmap. exists (lon_max, lat_max). split; [reflexivity|].
      unfold stepped_box_path. rewrite !elem_of_app. right; right; left.
      destruct (range_items_cons_down lon_max (lon_min - 1) (- res)) as [tail ->]; [lia..|].
      left.
Qed.

(** The full circle at any positive resolution: the ring is the vertices
    [(k * res, lat_min)] for [k = 0 .. 360 / res], whatever [lat_max] is.
    Its last longitude is [360 - 360 mod res], so the ring comes back to
    longitude [360] exactly when [res] divides [360]. *)
Theorem full_circle_at_any_resolution (lon_range lat_range : num * num) (res : Z) :
  (to_Q lon_range.1 == -180 /\ to_Q lon_range.2 == 180)%Q -> 0 < res ->
  boundary_vertices round64 lon_range lat_range res =
  Ok ((fun k => (Int (k * res), lat_range.1)) <$> seqZ 0 (360 / res + 1)) /\
  last ((fun k => (Int (k * res), lat_range.1)) <$> seqZ 0 (360 / res + 1)) =
  Some (Int (360 - 360 mod res), lat_range.1).
Proof.
  intros Hcircle Hres. split.
  - apply full_circle_taken in Hcircle as [Hcross Hfull].
    unfold boundary_vertices. rewrite Hcross, Hfull.
    unfold circle_vertices. run_ranges Hres.
    unfold range_items, range_length.
    destruct (Z.ltb_spec 0 res); [|lia].
    change (0 <? 360 + 1) with true. change (360 + 1 - 0 - 1) with 360. cbn match.
    rewrite <- list_fmap_compose. reflexivity.
  - rewrite seqZ_snoc by (apply Z.div_pos; lia).
    rewrite fmap_app.
    rewrite (last_snoc (Int ((0 + 360 / res) * res), lat_range.1)). do 3 f_equal.
    rewrite Z.mod_eq by lia. lia.
Qed.

End SteppedBoundary.

Lemma box_at_any_resolution_witness :
  head (stepped_box_path 0 10 0 10 3) = Some (0, 0) /\
  last (stepped_box_path 0 10 0 10 3) = Some (0, 0 + (10 - 0) mod 3) /\
  bounding_box (stepped_box_path 0 10 0 10 3) = Some (0, 10, 0, 10).
Proof.
  destruct (box_at_any_resolution exact 0 10 0 10 3) as (_ & Hhead & Hlast & _ & Hbox);
    try lia.
  repeat split; assumption.
Defined.

Lemma full_circle_at_any_resolution_witness :
  boundary_vertices exact (Int (-180), Int 180) (Int 60, Int 90) 7 =
  Ok ((fun k => (Int (k * 7), Int 60)) <$> seqZ 0 (360 / 7 + 1)) /\
  last ((fun k => (Int (k * 7), Int 60)) <$> seqZ 0 (360 / 7 + 1)) =
  Some (Int (360 - 360 mod 7), Int 60).
Proof.
  apply (full_circle_at_any_resolution exact (Int (-180), Int 180) (Int 60, Int 90) 7).
  - split; reflexivity.
  - lia.
Defined.

(** ** Corners of the box at resolution [1] *)

Lemma length_ascending (a b : Z) : length (ascending a b) = Z.to_nat (b - a + 1).
Proof. apply length_seqZ. Qed.

Lemma length_descending (b a : Z) : length (descending b a) = Z.to_nat (b - a + 1).
Proof. unfold descending. rewrite length_reverse. apply length_ascending. Qed.

Lemma box_path_length (a b c d : Z) :
  a <= b -> c <= d ->
  length (box_path a b c d) = Z.to_nat (2 * (b - a + 1) + 2 * (d - c + 1)).
Proof.
  intros Hab Hcd. unfold box_path, south_edge, east_edge, north_edge, west_edge.
  rewrite !length_app, !length_fmap, !length_ascending, !length_descending. lia.
Qed.

Lemma box_path_south_east_corner (a b c d : Z) :
  a <= b -> c <= d -> adjacent (b, c) (b, c) (box_path a b c d).
Proof.
  intros Hab Hcd.
  exists ((fun lon => (lon, c)) <$> ascending a (b - 1)),
         (((fun lat => (b, lat)) <$> ascending (c + 1) d) ++
          north_edge b a d ++ west_edge a d c).
  unfold box_path, south_edge, east_edge.
  rewrite (ascending_snoc a b), (ascending_cons c d) by assumption.
  rewrite fmap_app, fmap_cons, <- !app_assoc. reflexivity.
Qed.

Lemma box_path_north_east_corner (a b c d : Z) :
  a <= b -> c <= d -> adjacent (b, d) (b, d) (box_path a b c d).
Proof.
  intros Hab Hcd.
  exists (south_edge a b c ++ ((fun lat => (b, lat)) <$> ascending c (d - 1))),
         (((fun lon => (lon, d)) <$> descending (b - 1) a) ++ west_edge a d c).
  unfold box_path, east_edge, north_edge.
  rewrite (ascending_snoc c d), (descending_cons b a) by assumption.
  rewrite fmap_app, fmap_cons, <- !app_assoc. reflexivity.
Qed.

Lemma box_path_north_west_corner (a b c d : Z) :
  a <= b -> c <= d -> adjacent (a, d) (a, d) (box_path a b c d).
Proof.
  intros Hab Hcd.
  exists (south_edge a b c ++ east_edge b c d ++
          ((fun lon => (lon, d)) <$> descending b (a + 1))),
         ((fun lat => (a, lat)) <$> descending (d - 1) c).
  unfold box_path, north_edge, west_edge.
  rewrite (descending_snoc b a), (descending_cons d c) by assumption.
  rewrite fmap_app, fmap_cons, <- !app_assoc. reflexivity.
Qed.

Section BoxCorners.

Variable round64 : Q -> Q.

Lemma box_branch_Int (a b c d res : Z) :
  a < b -> ~ ((a = 180 \/ a = -180) /\ (b = 180 \/ b = -180)) ->
  boundary_vertices round64 (Int a, Int b) (Int c, Int d) res =
  box_vertices round64 (Int a, Int b) (Int c, Int d) res.
Proof.
  intros Hab Hnot. unfold boundary_vertices, crosses_antimeridian, full_circle.
  cbn [fst snd]. rewrite num_geb_Int, num_leb_Int, !num_eqb_Int.
  replace (_ && _) with false
    by (destruct (Z.geb_spec a 0), (Z.leb_spec b 0); cbn; lia).
  replace (_ && _) with false
    by (destruct (Z.eqb_spec a 180), (Z.eqb_spec a (-180)),
                 (Z.eqb_spec b 180), (Z.eqb_spec b (-180)); cbn; lia).
  reflexivity.
Qed.

(** Every edge of the box includes both of its ends, so at resolution
    [1] the south-east, north-east and north-west corners each appear
    twice in a row, and a box of [w] by [h] degrees has
    [2 (w + 1) + 2 (h + 1)] vertices. *)
Theorem box_corners_repeated (lon_min lon_max lat_min lat_max : Z) :
  lon_min < lon_max ->
  ~ ((lon_min = 180 \/ lon_min = -180) /\ (lon_max = 180 \/ lon_max = -180)) ->
  lat_min < lat_max ->
  exists vertices,
    boundary_vertices round64 (Int lon_min, Int lon_max) (Int lat_min, Int lat_max) 1 =
    Ok (ivertex <$> vertices) /\
    adjacent (lon_max, lat_min) (lon_max, lat_min) vertices /\
    adjacent (lon_max, lat_max) (lon_max, lat_max) vertices /\
    adjacent (lon_min, lat_max) (lon_min, lat_max) vertices /\
    length vertices =
    Z.to_nat (2 * (lon_max - lon_min + 1) + 2 * (lat_max - lat_min + 1)).
Proof.
  intros Hlon Hnot Hlat. exists (box_path lon_min lon_max lat_min lat_max).
  split; [now rewrite box_branch_Int, box_vertices_Int|].
  split; [apply box_path_south_east_corner; lia|].
  split; [apply box_path_north_east_corner; lia|].
  split; [apply box_path_north_west_corner; lia|].
  apply box_path_length; lia.
Qed.

End BoxCorners.

Lemma box_corners_repeated_witness :
  exists vertices,
    boundary_vertices exact (Int (-120), Int (-60)) (Int 20, Int 50) 1 =
    Ok (ivertex <$> vertices) /\
    adjacent (-60, 20) (-60, 20) vertices /\
    adjacent (-60, 50) (-60, 50) vertices /\
    adjacent (-120, 50) (-120, 50) vertices /\
    length vertices = Z.to_nat (2 * (-60 - -120 + 1) + 2 * (50 - 20 + 1)).
Proof.
  apply (box_corners_repeated exact (-120) (-60) 20 50); lia.
Defined.

(** * Further properties of the cosmetic setters *)

Section SetterComposition.

Variable round64 : Q -> Q.

(** The axis labels can be set in a call of their own: one call with
    titles and labels does what a call with the titles followed by a call
    with the labels does.  The titles cannot be split in the same way: a
    main title set alone sits at [y = 1.04] with its own font size, and a
    later call with the left title does not move it. *)
Theorem labels_split_off_titles_do_not
    (maintitle : string) (mfs : Z) (lefttitle righttitle : option string) (lfs rfs : Z)
    (xlabel ylabel : option string) (labfs : Z) (left : string) (ax : Axes) :
  set_titles_and_labels round64 (Some maintitle) mfs lefttitle lfs righttitle rfs
                        xlabel ylabel labfs ax =
  (set_titles_and_labels round64 (Some maintitle) mfs lefttitle lfs righttitle rfs
                         None None labfs ;;
   set_titles_and_labels round64 None mfs None lfs None rfs xlabel ylabel labfs)%st ax /\
  set_titles_and_labels round64 (Some maintitle) mfs (Some left) lfs None rfs
                        None None labfs ax <>
  (set_titles_and_labels round64 (Some maintitle) mfs None lfs None rfs None None labfs ;;
   set_titles_and_labels round64 None mfs (Some left) lfs None rfs None None labfs)%st ax.
Proof.
  split.
  - destruct lefttitle, righttitle, xlabel, ylabel; run_ax; reflexivity.
  - run_ax. intros [= Hcalls]. apply app_inv_head in Hcalls.
    injection Hcalls as Hsize _. lia.
Qed.

(** [set_axes_limits_and_ticks] applies the limits last: the calls it
    issues are tick and tick-label calls followed by limit calls, and one
    call with everything does what a call with the ticks and labels
    followed by a call with the limits does. *)
Theorem limits_are_applied_after_ticks
    (xlim ylim : option (num * num)) (xticks yticks : option (list num))
    (xticklabels yticklabels : option (list string)) (ax : Axes) :
  (exists ticks limits,
     set_axes_limits_and_ticks xlim ylim xticks yticks xticklabels yticklabels ax =
     (Ok tt, ax ++ ticks ++ limits) /\
     Forall (fun c => sets_ticks c = true) ticks /\
     Forall (fun c => sets_limit c = true) limits) /\
  set_axes_limits_and_ticks xlim ylim xticks yticks xticklabels yticklabels ax =
  (set_axes_limits_and_ticks None None xticks yticks xticklabels yticklabels ;;
   set_axes_limits_and_ticks xlim ylim None None None None)%st ax.
Proof.
  split.
  - exists (option_list (set_xticks <$> xticks) ++ option_list (set_yticks <$> yticks) ++
            option_list (set_xticklabels <$> xticklabels) ++
            option_list (set_yticklabels <$> yticklabels)),
           (option_list (set_xlim <$> xlim) ++ option_list (set_ylim <$> ylim)).
    split; [rewrite set_axes_limits_and_ticks_calls, <- !app_assoc; reflexivity|].
    split; destruct xlim, ylim, xticks, yticks, xticklabels, yticklabels;
      repeat constructor.
  - destruct xlim, ylim, xticks, yticks, xticklabels, yticklabels; run_ax; reflexivity.
Qed.

End SetterComposition.

(** * Further properties of [truncate_colormap] *)

Section ColormapRegistry.

Context {Colormap Samples Colors : Type}.
Variable cmap_name : Colormap -> string.
Variable format_2f : num -> result string.
Variable linspace : num -> num -> Z -> result Samples.
Variable lookup_colors : Colormap -> Samples -> result Colors.
Variable from_list : string -> Colors -> result Colormap.
Variable registry_refuses : string -> Colormap -> gmap string Colormap -> option exn.

(** A returning call binds exactly one name, the explicit one if it is a
    non-empty string and the generated one otherwise; that name resolves
    to the returned colormap and every other name resolves as before. *)
Theorem truncate_colormap_registers_one_name cmap minval maxval n (name : option string)
    (registry registry' : gmap string Colormap) (c : Colormap) :
  truncate_colormap cmap_name format_2f linspace lookup_colors from_list registry_refuses
                    cmap minval maxval n name registry = (Ok c, registry') ->
  exists registered,
    match name with
    | Some given =>
        if decide (given = "")
        then generated_name cmap_name format_2f cmap minval maxval = Ok registered
        else registered = given
    | None => generated_name cmap_name format_2f cmap minval maxval = Ok registered
    end /\
    registry' !! registered = Some c /\
    forall other, other <> registered -> registry' !! other = registry !! other.
Proof.
  unfold truncate_colormap, st_bind, st_lift, st_ret, register_cmap, falsy.
  destruct name as [given|]; cbn [default].
  - rewrite bool_decide_decide. destruct (decide (given = "")) as [->|Hgiven].
    + destruct (generated_name cmap_name format_2f cmap minval maxval) as [nm|];
        [|discriminate].
      destruct (linspace minval maxval n) as [samples|]; [|discriminate].
      destruct (lookup_colors cmap samples) as [colors|]; [|discriminate].
      destruct (from_list nm colors) as [new_cmap|]; [|discriminate].
      destruct (registry_refuses nm new_cmap registry); [discriminate|].
      intros [= <- <-]. exists nm. split; [reflexivity|]. split.
      * apply lookup_insert_eq.
      * intros other Hother. now apply lookup_insert_ne.
    + cbn.
      destruct (linspace minval maxval n) as [samples|]; [|discriminate].
      destruct (lookup_colors cmap samples) as [colors|]; [|discriminate].
      destruct (from_list given colors) as [new_cmap|]; [|discriminate].
      destruct (registry_refuses given new_cmap registry); [discriminate|].
      intros [= <- <-]. exists given. split; [reflexivity|]. split.
      * apply lookup_insert_eq.
      * intros other Hother. now apply lookup_insert_ne.
  - destruct (generated_name cmap_name format_2f cmap minval maxval) as [nm|];
      [|discriminate].
    destruct (linspace minval maxval n) as [samples|]; [|discriminate].
    destruct (lookup_colors cmap samples) as [colors|]; [|discriminate].
    destruct (from_list nm colors) as [new_cmap|]; [|discriminate].
    destruct (registry_refuses nm new_cmap registry); [discriminate|].
    intros [= <- <-]. exists nm. split; [reflexivity|]. split.
    + apply lookup_insert_eq.
    + intros other Hother. now apply lookup_insert_ne.
Qed.

(** A call that raises, wherever it raises, has registered nothing. *)
Theorem truncate_colormap_raise_leaves_registry cmap minval maxval n (name : option string)
    (registry registry' : gmap string Colormap) (e : exn) :
  truncate_colormap cmap_name format_2f linspace lookup_colors from_list registry_refuses
                    cmap minval maxval n name registry = (Raise e, registry') ->
  registry' = registry.
Proof.
  unfold truncate_colormap, st_bind, st_lift, st_ret, register_cmap.
  destruct (if falsy name then _ else _) as [nm|]; [|now intros [= _ <-]].
  destruct (linspace minval maxval n) as [samples|]; [|now intros [= _ <-]].
  destruct (lookup_colors cmap samples) as [colors|]; [|now intros [= _ <-]].
  destruct (from_list nm colors) as [new_cmap|]; [|now intros [= _ <-]].
  destruct (registry_refuses nm new_cmap registry); [now intros [= _ <-]|discriminate].
Qed.

(** The name is tested with [not name]: an empty string is taken as no
    name at all, and the call behaves as the call without a name. *)
Theorem truncate_colormap_empty_name_is_no_name cmap minval maxval n
    (registry : gmap string Colormap) :
  truncate_colormap cmap_name format_2f linspace lookup_colors from_list registry_refuses
                    cmap minval maxval n (Some "") registry =
  truncate_colormap cmap_name format_2f linspace lookup_colors from_list registry_refuses
                    cmap minval maxval n None registry.
Proof. reflexivity. Qed.

(** With an explicit non-empty name the bounds are never formatted: the
    call does not depend on the formatting, not even when formatting
    [minval] or [maxval] would raise. *)
Theorem truncate_colormap_explicit_name_skips_formatting
    (format_2f' : num -> result string) cmap minval maxval n (given : string)
    (registry : gmap string Colormap) :
  given <> "" ->
  truncate_colormap cmap_name format_2f linspace lookup_colors from_list registry_refuses
                    cmap minval maxval n (Some given) registry =
  truncate_colormap cmap_name format_2f' linspace lookup_colors from_list registry_refuses
                    cmap minval maxval n (Some given) registry.
Proof.
  intros Hgiven. unfold truncate_colormap, falsy.
  rewrite bool_decide_decide. now destruct (decide (given = "")).
Qed.

End ColormapRegistry.

Lemma truncate_colormap_registers_one_name_witness :
  let c := GrayMap "inner" [0; 1 # 2; 3 # 4]%Q in
  exists registered,
    registered = "inner" /\
    (<["inner" := c]> (registering gray) : gmap string gray_map) !! registered = Some c /\
    forall other, other <> registered ->
      (<["inner" := c]> (registering gray) : gmap string gray_map) !! other =
      registering gray !! other.
Proof.
  intros c.
  apply (truncate_colormap_registers_one_name gray_name format_2f_exact gray_linspace
           gray_lookup gray_from_list refuses_registered gray (Float (2 # 10)) (Float (8 # 10)) 3
           (Some "inner") (registering gray)).
  reflexivity.
Defined.

Lemma truncate_colormap_raise_leaves_registry_witness :
  registering gray = registering gray.
Proof.
  apply (truncate_colormap_raise_leaves_registry gray_name format_2f_exact gray_linspace
           gray_lookup gray_from_list refuses_registered gray (Float (2 # 10)) (Float (8 # 10)) (-1) None
           (registering gray) (registering gray)
           (ValueError "Number of samples must be non-negative")).
  reflexivity.
Defined.

Lemma truncate_colormap_explicit_name_skips_formatting_witness :
  gray_truncate accepts_any gray (Float (2 # 10)) (Float (8 # 10)) 3 (Some "inner") ∅ =
  truncate_colormap gray_name (fun _ => Raise (TypeError "unsupported format string"))
                    gray_linspace gray_lookup gray_from_list accepts_any
                    gray (Float (2 # 10)) (Float (8 # 10)) 3 (Some "inner") ∅.
Proof.
  apply (truncate_colormap_explicit_name_skips_formatting gray_name format_2f_exact
           gray_linspace gray_lookup gray_from_list accepts_any).
  discriminate.
Defined.

(** * The deprecated wrappers and the warning filters *)

Example ticklabels_calls :
  add_lat_lon_ticklabels false true [] =
  [set_major_formatter xaxis (LongitudeFormatter false true);
   set_major_formatter yaxis LatitudeFormatter].
Proof. reflexivity. Qed.

Lemma remove_first_absent (x : warning_filter) (l : list warning_filter) :
  x ∉ l -> remove_first x l = l.
Proof.
  induction l as [|y l IH]; [reflexivity|]. cbn. intros Hx.
  apply not_elem_of_cons in Hx as [Hne Hx].
  destruct (decide (x = y)); [contradiction|]. now rewrite IH.
Qed.

Lemma remove_first_present (x : warning_filter) (pre post : list warning_filter) :
  x ∉ pre -> remove_first x (pre ++ x :: post) = pre ++ post.
Proof.
  induction pre as [|y pre IH]; cbn; intros Hx.
  - now destruct (decide (x = x)).
  - apply not_elem_of_cons in Hx as [Hne Hx].
    destruct (decide (x = y)); [contradiction|]. now rewrite IH.
Qed.

Lemma remove_first_length (x : warning_filter) (l : list warning_filter) :
  x ∈ l -> S (length (remove_first x l)) = length l.
Proof.
  induction l as [|y l IH]; [intros H; inversion H|]. cbn. intros Hx.
  destruct (decide (x = y)) as [->|Hne]; [reflexivity|].
  apply elem_of_cons in Hx as [Heq|Hx]; [contradiction|].
  cbn. now rewrite IH.
Qed.

Lemma remove_first_id_iff (x : warning_filter) (l : list warning_filter) :
  remove_first x l = l <-> x ∉ l.
Proof.
  split; [|apply remove_first_absent].
  intros Hid Hx. apply remove_first_length in Hx. rewrite Hid in Hx. lia.
Qed.

Section DeprecatedProperties.

Variable round64 : Q -> Q.
Context {Exc Cmap : Type}.
Variable warn : list warning_filter -> string -> string -> Z -> option Exc.
Variable BlueYellowRed : Cmap.

Lemma warn_deprecated_returns (message : string) (filters : list warning_filter) :
  warn (simplefilter "always" "DeprecationWarning" filters) message "DeprecationWarning" 2 =
  None ->
  warn_deprecated warn message filters =
  (Returned tt, remove_first always_deprecation filters).
Proof. intros Hwarn. unfold warn_deprecated. now rewrite Hwarn. Qed.

Lemma warn_deprecated_raises (message : string) (filters : list warning_filter) (e : Exc) :
  warn (simplefilter "always" "DeprecationWarning" filters) message "DeprecationWarning" 2 =
  Some e ->
  warn_deprecated warn message filters =
  (Thrown (WarnRaised e), always_deprecation :: remove_first always_deprecation filters).
Proof. intros Hwarn. unfold warn_deprecated. now rewrite Hwarn. Qed.

(** When the warning is emitted without an exception, [nclize_axis] makes
    the calls of [add_major_minor_ticks] with both counts equal to
    [minor_per_major] and the default label size, and the filters end as
    they were minus their first ['always'] [DeprecationWarning] entry: they
    are restored exactly when the caller had no such filter, and a filter
    of the caller's own is removed. *)
Theorem nclize_axis_filters_after_return (minor_per_major : Z)
    (filters : list warning_filter) (ax : list tick_call) :
  warn (simplefilter "always" "DeprecationWarning" filters) nclize_axis_msg
       "DeprecationWarning" 2 = None ->
  exists filters',
    nclize_axis round64 warn minor_per_major (filters, ax) =
    (Returned tt,
     (filters',
      add_major_minor_ticks round64 minor_per_major minor_per_major (size_name "small") ax)) /\
    (filters' = filters <-> always_deprecation ∉ filters) /\
    (forall pre post,
       filters = pre ++ always_deprecation :: post -> always_deprecation ∉ pre ->
       filters' = pre ++ post).
Proof.
  intros Hwarn. exists (remove_first always_deprecation filters).
  split; [|split].
  - unfold nclize_axis. cbn [fst snd]. now rewrite warn_deprecated_returns.
  - apply remove_first_id_iff.
  - intros pre post -> Hpre. now apply remove_first_present.
Qed.

(** When emitting the warning raises, the exception goes to the caller
    with no call made on the axes, and nothing undoes [simplefilter]: the
    ['always'] filter stays at the front of the filters, which for a
    caller that had no such filter have grown by one entry. *)
Theorem nclize_axis_warn_raises_keeps_filter (minor_per_major : Z)
    (filters : list warning_filter) (ax : list tick_call) (e : Exc) :
  warn (simplefilter "always" "DeprecationWarning" filters) nclize_axis_msg
       "DeprecationWarning" 2 = Some e ->
  exists rest,
    nclize_axis round64 warn minor_per_major (filters, ax) =
    (Thrown (WarnRaised e), (always_deprecation :: rest, ax)) /\
    (always_deprecation ∉ filters -> rest = filters).
Proof.
  intros Hwarn. exists (remove_first always_deprecation filters). split.
  - unfold nclize_axis. cbn [fst snd]. now rewrite (warn_deprecated_raises _ _ e).
  - apply remove_first_absent.
Qed.

(** [make_byr_cmap] returns [cmaps.BlueYellowRed] when the warning is
    emitted without an exception, and treats the filters as [nclize_axis]
    does: restored exactly when they had no ['always']
    [DeprecationWarning] entry, and otherwise short of the first one. *)
Theorem make_byr_cmap_returns_and_filters (filters : list warning_filter) :
  warn (simplefilter "always" "DeprecationWarning" filters) make_byr_cmap_msg
       "DeprecationWarning" 2 = None ->
  exists filters',
    make_byr_cmap warn BlueYellowRed filters = (Returned BlueYellowRed, filters') /\
    (filters' = filters <-> always_deprecation ∉ filters) /\
    (forall pre post,
       filters = pre ++ always_deprecation :: post -> always_deprecation ∉ pre ->
       filters' = pre ++ post).
Proof.
  intros Hwarn. exists (remove_first always_deprecation filters).
  split; [|split].
  - unfold make_byr_cmap. now rewrite warn_deprecated_returns.
  - apply remove_first_id_iff.
  - intros pre post -> Hpre. now apply remove_first_present.
Qed.

End DeprecatedProperties.

Lemma nclize_axis_filters_after_return_witness :
  exists filters',
    nclize_axis exact warn_shows 3 ([ignore_deprecation; always_deprecation], []) =
    (Returned tt,
     (filters', add_major_minor_ticks exact 3 3 (size_name "small") [])) /\
    (filters' = [ignore_deprecation; always_deprecation] <->
     always_deprecation ∉ [ignore_deprecation; always_deprecation]) /\
    (forall pre post,
       [ignore_deprecation; always_deprecation] = pre ++ always_deprecation :: post ->
       always_deprecation ∉ pre -> filters' = pre ++ post).
Proof.
  apply (nclize_axis_filters_after_return exact warn_shows 3
           [ignore_deprecation; always_deprecation] []).
  reflexivity.
Defined.

Lemma nclize_axis_warn_raises_keeps_filter_witness :
  exists rest,
    nclize_axis exact warn_hook_raises 3 ([ignore_deprecation], []) =
    (Thrown (WarnRaised (TypeError "showwarning hook")), (always_deprecation :: rest, [])) /\
    (always_deprecation ∉ [ignore_deprecation] -> rest = [ignore_deprecation]).
Proof.
  apply (nclize_axis_warn_raises_keeps_filter exact warn_hook_raises 3
           [ignore_deprecation] []).
  reflexivity.
Defined.

Lemma make_byr_cmap_returns_and_filters_witness :
  exists filters',
    make_byr_cmap warn_shows gray [always_deprecation; ignore_deprecation] =
    (Returned gray, filters') /\
    (filters' = [always_deprecation; ignore_deprecation] <->
     always_deprecation ∉ [always_deprecation; ignore_deprecation]) /\
    (forall pre post,
       [always_deprecation; ignore_deprecation] = pre ++ always_deprecation :: post ->
       always_deprecation ∉ pre -> filters' = pre ++ post).
Proof.
  apply (make_byr_cmap_returns_and_filters warn_shows gray
           [always_deprecation; ignore_deprecation]).
  reflexivity.
Defined.

Example nclize_axis_drops_callers_filter :
  nclize_axis exact warn_shows 3 ([ignore_deprecation; always_deprecation], []) =
  (Returned tt, ([ignore_deprecation], add_major_minor_ticks exact 3 3 (size_name "small") [])).
Proof. reflexivity. Qed.

(** * Valid ranges that set no extent *)

(** C5 as stated fails on ranges that pass validation but hold a
    [float]: [lon_range = (10.5, 20.5)] satisfies the four rules, and the
    call raises in the vertex generation with no call made on the axes, so
    no extent is set. *)
Lemma valid_float_ranges_set_no_extent :
  valid_ranges (Float (21 # 2), Float (41 # 2)) (Int 0, Int 10) /\
  set_map_boundary exact (Float (21 # 2), Float (41 # 2)) (Int 0, Int 10) 0 0 0 0 1 [] =
  (Raise (TypeError float_not_integer), []) /\
  ~ generates (Float (21 # 2), Float (41 # 2)) (Int 0, Int 10).
Proof.
  split; [apply validate_Ok; reflexivity|]. split; [reflexivity|].
  intros [Hint|[Hlon _]].
  - discriminate.
  - vm_compute in Hlon. discriminate.
Qed.

(** * Across the antimeridian at any resolution *)

Lemma adjacent_between {A : Type} (pre l1 l2 post : list A) (x y : A) :
  last l1 = Some x -> head l2 = Some y -> adjacent x y (pre ++ l1 ++ l2 ++ post).
Proof.
  intros Hlast Hhead.
  apply last_Some in Hlast as [l1' ->].
  destruct l2 as [|y' l2']; [discriminate|]. injection Hhead as ->.
  exists (pre ++ l1'), (l2' ++ post). now rewrite <- !app_assoc.
Qed.

Lemma adjacent_consecutive {A : Type} (x y : A) (l : list A) :
  adjacent x y l -> (x, y) ∈ consecutive l.
Proof.
  intros (pre & post & ->). unfold consecutive.
  induction pre as [|z pre IH]; cbn.
  - left.
  - destruct pre as [|z' pre]; cbn in *; right; exact IH.
Qed.

Lemma elem_of_stepped_antimeridian_path (a b c d res : Z) (v : Z * Z) :
  0 < a -> a <= 180 -> -180 <= b -> b < 0 -> 0 < res ->
  v ∈ stepped_antimeridian_path a b c d res -> -180 <= v.1 /\ v.1 <= 180.
Proof.
  intros Ha Ha' Hb Hb' Hres. unfold stepped_antimeridian_path.
  rewrite !elem_of_app, !list_elem_of_fmap.
  intros [(x & -> & Hx)|[(x & -> & Hx)|[(x & -> & Hx)|
          [(x & -> & Hx)|[(x & -> & Hx)|(x & -> & Hx)]]]]]; cbn;
    try lia;
    first [ apply elem_of_range_items_up in Hx; lia
          | apply elem_of_range_items_down in Hx; lia ].
Qed.

Lemma stepped_antimeridian_path_south (a b c d res : Z) :
  a <= 180 -> -180 <= b -> 0 < res ->
  adjacent (180 - (180 - a) mod res, c) (-180, c) (stepped_antimeridian_path a b c d res).
Proof.
  intros Ha Hb Hres. unfold stepped_antimeridian_path.
  apply (adjacent_between []).
  - rewrite fmap_last, range_items_last_up by lia. cbn. do 2 f_equal.
    replace (180 + 1 - a - 1) with (180 - a) by lia.
    rewrite Z.mod_eq by lia. lia.
  - destruct (range_items_cons (-180) (b + 1) res) as [tail ->]; [lia..|]. reflexivity.
Qed.

Lemma stepped_antimeridian_path_north (a b c d res : Z) :
  a <= 180 -> -180 <= b -> 0 < res ->
  adjacent (-180 + (b + 180) mod res, d) (180, d) (stepped_antimeridian_path a b c d res).
Proof.
  intros Ha Hb Hres. unfold stepped_antimeridian_path.
  rewrite (app_assoc (_ <$> range_items a (180 + 1) res)).
  rewrite (app_assoc (_ ++ _) (_ <$> range_items c (d + 1) res)).
  apply adjacent_between.
  - rewrite fmap_last, range_items_last_down by lia. cbn. do 2 f_equal.
    replace (b - (-180 - 1) - 1) with (b + 180) by lia.
    rewrite Z.opp_involutive, Z.mod_eq by lia. lia.
  - destruct (range_items_cons_down 180 (a - 1) (- res)) as [tail ->]; [lia..|].
    reflexivity.
Qed.

Section SteppedAntimeridian.

Variable round64 : Q -> Q.

Lemma antimeridian_vertices_stepped (a b c d res : Z) :
  res <> 0 ->
  antimeridian_vertices round64 (Int a, Int b) (Int c, Int d) res =
  Ok (ivertex <$> stepped_antimeridian_path a b c d res).
Proof.
  intros Hres. unfold antimeridian_vertices. run_ranges Hres.
  unfold stepped_antimeridian_path.
  rewrite !fmap_app, <- !list_fmap_compose. reflexivity.
Qed.

(** C3, as the code has it.  Integer ranges across the antimeridian
    ([0 < lon_min <= 180], [-180 <= lon_max < 0]) at any positive
    resolution: the call sets the boundary to the six stepped edges,
    starting at the south-west corner, and every longitude lies in
    [[-180, 180]].  On the south edge the last vertex before the
    antimeridian, at longitude [180 - (180 - lon_min) mod res], is
    immediately followed by the vertex at [-180]; on the north edge the
    vertex at [-180 + (lon_max + 180) mod res] is immediately followed by
    the vertex at [180].  At resolution [1] these are the vertices at
    [180] and [-180] themselves. *)
Theorem antimeridian_boundary_at_any_resolution
    (lon_min lon_max lat_min lat_max res : Z)
    (north_pad south_pad east_pad west_pad : Z) (ax : Axes) :
  0 < lon_min -> lon_min <= 180 -> -180 <= lon_max -> lon_max < 0 ->
  lat_min < lat_max -> -90 <= lat_min -> lat_max <= 90 -> 0 < res ->
  set_map_boundary round64 (Int lon_min, Int lon_max) (Int lat_min, Int lat_max)
                   north_pad south_pad east_pad west_pad res ax =
  (Ok tt,
   ax ++ [set_boundary
            (proj_to_data
               (Path (ivertex <$>
                      stepped_antimeridian_path lon_min lon_max lat_min lat_max res)));
          set_extent [Int (lon_min - west_pad); Int (lon_max + east_pad);
                      Int (lat_min - south_pad); Int (lat_max + north_pad)]
                     PlateCarree]) /\
  Forall (fun v => -180 <= v.1 /\ v.1 <= 180)
         (stepped_antimeridian_path lon_min lon_max lat_min lat_max res) /\
  head (stepped_antimeridian_path lon_min lon_max lat_min lat_max res) =
  Some (lon_min, lat_min) /\
  adjacent (180 - (180 - lon_min) mod res, lat_min) (-180, lat_min)
           (stepped_antimeridian_path lon_min lon_max lat_min lat_max res) /\
  adjacent (-180 + (lon_max + 180) mod res, lat_max) (180, lat_max)
           (stepped_antimeridian_path lon_min lon_max lat_min lat_max res) /\
  (res = 1 ->
   adjacent (180, lat_min) (-180, lat_min)
            (stepped_antimeridian_path lon_min lon_max lat_min lat_max res) /\
   adjacent (-180, lat_max) (180, lat_max)
            (stepped_antimeridian_path lon_min lon_max lat_min lat_max res)).
Proof.
  intros Hpos Hhi Hlo Hneg Hlat Hlatlo Hlathi Hres.
  pose proof (stepped_antimeridian_path_south lon_min lon_max lat_min lat_max res
                ltac:(lia) ltac:(lia) Hres) as Hsouth.
  pose proof (stepped_antimeridian_path_north lon_min lon_max lat_min lat_max res
                ltac:(lia) ltac:(lia) Hres) as Hnorth.
  split; [|split; [|split; [|split; [exact Hsouth|split; [exact Hnorth|]]]]].
  - rewrite set_map_boundary_run.
    assert (Hvalid : validate (Int lon_min, Int lon_max) (Int lat_min, Int lat_max) = Ok tt)
      by (apply validate_Ok, valid_ranges_Int; lia).
    rewrite Hvalid. unfold boundary_vertices, crosses_antimeridian. cbn [fst snd].
    rewrite num_geb_Int, num_leb_Int.
    destruct (Z.geb_spec lon_min 0), (Z.leb_spec lon_max 0); try lia. cbn [andb].
    rewrite antimeridian_vertices_stepped by lia. reflexivity.
  - apply Forall_forall. intros v. apply elem_of_stepped_antimeridian_path; lia.
  - unfold stepped_antimeridian_path.
    destruct (range_items_cons lon_min (180 + 1) res) as [tail ->]; [lia..|]. reflexivity.
  - intros ->. rewrite !Z.mod_1_r, Z.sub_0_r, Z.add_0_r in *. split; assumption.
Qed.

End SteppedAntimeridian.

Lemma antimeridian_boundary_at_any_resolution_witness :
  Forall (fun v => -180 <= v.1 /\ v.1 <= 180)
         (stepped_antimeridian_path 170 (-170) (-10) 10 3) /\
  adjacent (180 - (180 - 170) mod 3, -10) (-180, -10)
           (stepped_antimeridian_path 170 (-170) (-10) 10 3) /\
  adjacent (-180 + (-170 + 180) mod 3, 10) (180, 10)
           (stepped_antimeridian_path 170 (-170) (-10) 10 3).
Proof.
  destruct (antimeridian_boundary_at_any_resolution exact 170 (-170) (-10) 10 3 0 0 0 0 [])
    as (_ & Hbounds & _ & Hsouth & Hnorth & _); try lia.
  repeat split; assumption.
Defined.

(** C3 as stated fails at a resolution above [1]: on the ranges
    [(170, -170)], [(-10, 10)] with [res = 3] the south edge steps from
    [179] to [-180] and the north edge from [-179] to [180]; no vertex at
    longitude [180] is followed by one at [-180], nor the reverse. *)
Lemma no_transition_at_180_with_step_3 :
  boundary_vertices exact (Int 170, Int (-170)) (Int (-10), Int 10) 3 =
  Ok (ivertex <$> stepped_antimeridian_path 170 (-170) (-10) 10 3) /\
  adjacent (179, -10) (-180, -10) (stepped_antimeridian_path 170 (-170) (-10) 10 3) /\
  adjacent (-179, 10) (180, 10) (stepped_antimeridian_path 170 (-170) (-10) 10 3) /\
  (forall lat lat',
     ~ adjacent (180, lat) (-180, lat') (stepped_antimeridian_path 170 (-170) (-10) 10 3)) /\
  (forall lat lat',
     ~ adjacent (-180, lat) (180, lat') (stepped_antimeridian_path 170 (-170) (-10) 10 3)).
Proof.
  split; [reflexivity|].
  split; [apply (stepped_antimeridian_path_south 170 (-170) (-10) 10 3); lia|].
  split; [apply (stepped_antimeridian_path_north 170 (-170) (-10) 10 3); lia|].
  assert (Hpairs :
    Forall (fun p : (Z * Z) * (Z * Z) =>
              ~ (p.1.1 = 180 /\ p.2.1 = -180) /\ ~ (p.1.1 = -180 /\ p.2.1 = 180))
           (consecutive (stepped_antimeridian_path 170 (-170) (-10) 10 3))).
  { vm_compute. repeat constructor; cbn; lia. }
  rewrite Forall_forall in Hpairs.
  split; intros lat lat' Hadj%adjacent_consecutive; apply Hpairs in Hadj; cbn in Hadj; lia.
Qed.
